(** * The Job lifecycle engine of agenda (dist/Job.js)

    A shallow embedding of the [Job] class: the job record, failure
    accounting, recurrence orchestration, lease expiry, heartbeat and the
    execution orchestration [run].  Everything the class reaches through
    [this.agenda] (registry, storage, event bus), the recurrence functions,
    the priority resolver and the clock are collaborators that live outside
    dist/Job.js; they are taken as parameters and may behave arbitrarily. *)

From stdpp Require Import base option strings gmap list pretty.
From Stdlib Require Import ZArith Lia.

Local Open Scope Z_scope.

(** ** JavaScript values *)

(** The error classes the engine can meet: [Error] itself and the two
    built-in subclasses raised by the runtime on a bad dereference
    ([TypeError]) or on formatting an invalid date ([RangeError]). *)
Inductive ErrorKind := KError | KTypeError | KRangeError.

(** Dynamically typed values: what a handler may throw, what [fail]
    receives, and the loosely typed fields of a job.  Numbers are the
    integers (counters and millisecond timestamps stay far inside the range
    where JavaScript numbers are exact). *)
Inductive JsVal :=
| VUndefined
| VNull
| VBool (b : bool)
| VNum (n : Z)
| VStr (s : string)
| VErr (kind : ErrorKind) (message : string).

(** A property that may hold [undefined], [null] or a value of type [A]. *)
Inductive Nullable (A : Type) :=
| JUndefined
| JNull
| JSome (a : A).
Arguments JUndefined {A}.
Arguments JNull {A}.
Arguments JSome {A} a.

(** A [Date] object: a millisecond time value, or the invalid date whose
    time value is NaN. *)
Inductive Date := ValidDate (ms : Z) | InvalidDate.

(** JavaScript truthiness ([if (v)], [!v], [v || w], [v && w]). *)
Definition truthy (v : JsVal) : bool :=
  match v with
  | VUndefined | VNull => false
  | VBool b => b
  | VNum n => negb (n =? 0)
  | VStr s => negb (String.eqb s "")
  | VErr _ _ => true
  end.

(** Objects (dates among them) are always truthy; a number is truthy unless
    it is zero. *)
Definition present {A} (o : Nullable A) : bool :=
  match o with JSome _ => true | _ => false end.

Definition truthy_num (o : Nullable Z) : bool :=
  match o with JSome n => negb (n =? 0) | _ => false end.

(** [n || d] on a counter that may be missing: [undefined], [null] and [0]
    are falsy. *)
Definition or_default (o : Nullable Z) (d : Z) : Z :=
  if truthy_num o then match o with JSome n => n | _ => d end else d.

(** [v.message]: reading a property of [undefined] or [null] is a
    [TypeError]; an error object gives its message; every other primitive
    gives [undefined]. *)
Definition get_message (v : JsVal) : JsVal + JsVal :=
  match v with
  | VUndefined =>
      inl (VErr KTypeError "Cannot read properties of undefined (reading 'message')")
  | VNull =>
      inl (VErr KTypeError "Cannot read properties of null (reading 'message')")
  | VErr _ m => inr (VStr m)
  | _ => inr VUndefined
  end.

Definition kind_name (k : ErrorKind) : string :=
  match k with
  | KError => "Error"
  | KTypeError => "TypeError"
  | KRangeError => "RangeError"
  end.

(** String conversion as performed by a template literal. *)
Definition to_string (v : JsVal) : string :=
  match v with
  | VUndefined => "undefined"
  | VNull => "null"
  | VBool true => "true"
  | VBool false => "false"
  | VNum n => pretty n
  | VStr s => s
  | VErr k m => if String.eqb m "" then kind_name k else kind_name k +:+ ": " +:+ m
  end.

(** [d.getTime()]: [None] stands for NaN. *)
Definition getTime (d : Date) : option Z :=
  match d with ValidDate ms => Some ms | InvalidDate => None end.

(** [a > b] and [a < b] on numbers that may be NaN: any comparison with NaN
    is false. *)
Definition num_gt (a b : option Z) : bool :=
  match a, b with Some x, Some y => y <? x | _, _ => false end.

Definition num_lt (a b : option Z) : bool :=
  match a, b with Some x, Some y => x <? y | _, _ => false end.

(** [d.toISOString()] raises a [RangeError] on the invalid date. *)
Definition toISOString_raises (d : Date) : option JsVal :=
  match d with
  | ValidDate _ => None
  | InvalidDate => Some (VErr KRangeError "Invalid time value")
  end.

(** ** The job record *)

(** [this.attrs].  All fields of the record that dist/Job.js reads or
    writes.  [priority] holds the caller's loosely typed input in a
    specification object and a number once the constructor has resolved
    it. *)
Record JobAttrs := mkJobAttrs {
  _id : JsVal;
  name : string;
  type : JsVal;
  priority : JsVal;
  data : JsVal;
  nextRunAt : Nullable Date;
  lastRunAt : Nullable Date;
  lastFinishedAt : Nullable Date;
  lockedAt : Nullable Date;
  failCount : Nullable Z;
  failReason : JsVal;
  failedAt : Nullable Date;
  disabled : Nullable bool;
  unique : JsVal;
  uniqueOpts : JsVal;
  repeatInterval : JsVal;
  repeatTimezone : JsVal;
  repeatAt : JsVal;
  progress : JsVal
}.

(** Field assignments [this.attrs.f = v]. *)
Definition set_nextRunAt (v : Nullable Date) (a : JobAttrs) : JobAttrs :=
  mkJobAttrs (_id a) (name a) (type a) (priority a) (data a) v (lastRunAt a)
    (lastFinishedAt a) (lockedAt a) (failCount a) (failReason a) (failedAt a)
    (disabled a) (unique a) (uniqueOpts a) (repeatInterval a) (repeatTimezone a)
    (repeatAt a) (progress a).

Definition set_lastRunAt (v : Nullable Date) (a : JobAttrs) : JobAttrs :=
  mkJobAttrs (_id a) (name a) (type a) (priority a) (data a) (nextRunAt a) v
    (lastFinishedAt a) (lockedAt a) (failCount a) (failReason a) (failedAt a)
    (disabled a) (unique a) (uniqueOpts a) (repeatInterval a) (repeatTimezone a)
    (repeatAt a) (progress a).

Definition set_lastFinishedAt (v : Nullable Date) (a : JobAttrs) : JobAttrs :=
  mkJobAttrs (_id a) (name a) (type a) (priority a) (data a) (nextRunAt a)
    (lastRunAt a) v (lockedAt a) (failCount a) (failReason a) (failedAt a)
    (disabled a) (unique a) (uniqueOpts a) (repeatInterval a) (repeatTimezone a)
    (repeatAt a) (progress a).

Definition set_lockedAt (v : Nullable Date) (a : JobAttrs) : JobAttrs :=
  mkJobAttrs (_id a) (name a) (type a) (priority a) (data a) (nextRunAt a)
    (lastRunAt a) (lastFinishedAt a) v (failCount a) (failReason a) (failedAt a)
    (disabled a) (unique a) (uniqueOpts a) (repeatInterval a) (repeatTimezone a)
    (repeatAt a) (progress a).

Definition set_failCount (v : Nullable Z) (a : JobAttrs) : JobAttrs :=
  mkJobAttrs (_id a) (name a) (type a) (priority a) (data a) (nextRunAt a)
    (lastRunAt a) (lastFinishedAt a) (lockedAt a) v (failReason a) (failedAt a)
    (disabled a) (unique a) (uniqueOpts a) (repeatInterval a) (repeatTimezone a)
    (repeatAt a) (progress a).

Definition set_failReason (v : JsVal) (a : JobAttrs) : JobAttrs :=
  mkJobAttrs (_id a) (name a) (type a) (priority a) (data a) (nextRunAt a)
    (lastRunAt a) (lastFinishedAt a) (lockedAt a) (failCount a) v (failedAt a)
    (disabled a) (unique a) (uniqueOpts a) (repeatInterval a) (repeatTimezone a)
    (repeatAt a) (progress a).

Definition set_failedAt (v : Nullable Date) (a : JobAttrs) : JobAttrs :=
  mkJobAttrs (_id a) (name a) (type a) (priority a) (data a) (nextRunAt a)
    (lastRunAt a) (lastFinishedAt a) (lockedAt a) (failCount a) (failReason a) v
    (disabled a) (unique a) (uniqueOpts a) (repeatInterval a) (repeatTimezone a)
    (repeatAt a) (progress a).

Definition set_repeatInterval (v : JsVal) (a : JobAttrs) : JobAttrs :=
  mkJobAttrs (_id a) (name a) (type a) (priority a) (data a) (nextRunAt a)
    (lastRunAt a) (lastFinishedAt a) (lockedAt a) (failCount a) (failReason a)
    (failedAt a) (disabled a) (unique a) (uniqueOpts a) v (repeatTimezone a)
    (repeatAt a) (progress a).

Definition set_repeatTimezone (v : JsVal) (a : JobAttrs) : JobAttrs :=
  mkJobAttrs (_id a) (name a) (type a) (priority a) (data a) (nextRunAt a)
    (lastRunAt a) (lastFinishedAt a) (lockedAt a) (failCount a) (failReason a)
    (failedAt a) (disabled a) (unique a) (uniqueOpts a) (repeatInterval a) v
    (repeatAt a) (progress a).

Definition set_progress (v : JsVal) (a : JobAttrs) : JobAttrs :=
  mkJobAttrs (_id a) (name a) (type a) (priority a) (data a) (nextRunAt a)
    (lastRunAt a) (lastFinishedAt a) (lockedAt a) (failCount a) (failReason a)
    (failedAt a) (disabled a) (unique a) (uniqueOpts a) (repeatInterval a)
    (repeatTimezone a) (repeatAt a) v.

(** A [Job] instance apart from its [agenda] reference: the attributes, the
    flag telling whether the job processor created it, and the cancellation
    marker that the processor sets from outside. *)
Record Job := mkJob {
  attrs : JobAttrs;
  byJobProcessor : bool;
  canceled : JsVal
}.

Definition with_attrs (f : JobAttrs -> JobAttrs) (j : Job) : Job :=
  mkJob (f (attrs j)) (byJobProcessor j) (canceled j).

(** ** Handlers and the job-type registry *)

(** How the asynchronous result returned by a handler ends. *)
Inductive Settlement := Resolves | Rejects (e : JsVal) | NeverSettles.

(** What a handler returns: a promise ([isPromise(result)]) or anything
    else. *)
Inductive ReturnValue := RPlain | RPromise (s : Settlement).

(** The handler call itself either throws synchronously or returns. *)
Inductive Invocation := Throws (e : JsVal) | Returns (r : ReturnValue).

(** When the completion callback is first invoked: while the handler call is
    still on the stack, later but before the returned promise's rejection is
    delivered, or after it. *)
Inductive CallbackTime := DuringCall | BeforeResult | AfterResult.

(** One execution of a handler: the state in which it leaves the job it was
    given (a handler may call [touch], [fail], ...), the number of clock
    readings made meanwhile and the states handed to the store meanwhile (a
    heartbeat [touch] makes one reading and one save), how the call ended,
    and the first invocation of the completion callback, if any, with the
    error argument passed to it. *)
Record HandlerRun := mkHandlerRun {
  job_after : Job;
  readings : nat;
  saves : list JobAttrs;
  invocation : Invocation;
  callback : option (CallbackTime * JsVal)
}.

(** An entry of [agenda.definitions]: [fn.length], the behaviour of [fn] on
    a job, and the lease duration in milliseconds. *)
Record JobDefinition := mkJobDefinition {
  fn_length : nat;
  fn : Job -> HandlerRun;
  lockLifetime : Z
}.

(** ** The world around a job *)

(** Calls that leave the engine, in the order they are made. *)
Inductive Effect :=
| SavedJobState (a : JobAttrs)
| Emitted (event : string) (error : option JsVal) (a : JobAttrs)
| GotJobs (id : JsVal).

(** The [agenda] object.  The storage adapter and the listeners answer as a
    function of everything that happened so far and of the job they are
    handed: [db_saveJobState] and [emit_raises] give the exception they
    raise, if any. *)
Record Agenda := mkAgenda {
  definitions : gmap string JobDefinition;
  db_saveJobState : list Effect -> Job -> option JsVal;
  db_getJobs : list Effect -> JsVal -> JsVal + list JobAttrs;
  emit_raises : list Effect -> string -> option JsVal -> Job -> option JsVal
}.

(** What dist/Job.js imports: the clock ([Date.now()] at the n-th reading),
    the two recurrence strategies of utils/nextRunAt, which return a date or
    raise, and the priority resolver of utils/priority. *)
Record Imports := mkImports {
  Date_now : nat -> Z;
  computeFromInterval : JobAttrs -> JsVal + Date;
  computeFromRepeatAt : JobAttrs -> JsVal + Date;
  parsePriority : JsVal -> Z
}.

(** The state a method runs in: the instance, the number of clock readings
    made, and the calls made so far (oldest first). *)
Record World := mkWorld {
  this : Job;
  ticks : nat;
  trace : list Effect
}.

(** How a method ends: normally, by an exception, or never (an awaited
    promise that is never settled). *)
Inductive Completion (A : Type) :=
| Normal (a : A)
| Throw (e : JsVal)
| Pending.
Arguments Normal {A} a.
Arguments Throw {A} e.
Arguments Pending {A}.

Definition M (A : Type) : Type := World -> Completion A * World.

#[global] Instance M_ret : MRet M := fun A a w => (Normal a, w).

#[global] Instance M_bind : MBind M := fun A B f m w =>
  match m w with
  | (Normal a, w') => f a w'
  | (Throw e, w') => (Throw e, w')
  | (Pending, w') => (Pending, w')
  end.

Definition throw {A} (e : JsVal) : M A := fun w => (Throw e, w).

(** [try { m } catch (error) { h error }] *)
Definition try_catch {A} (m : M A) (h : JsVal -> M A) : M A := fun w =>
  match m w with
  | (Throw e, w') => h e w'
  | r => r
  end.

(** [try { m } finally { f }]: [f] runs after a normal or an exceptional end
    of [m]; an exception of [f] replaces the outcome of [m]. *)
Definition try_finally {A} (m : M A) (f : M unit) : M A := fun w =>
  match m w with
  | (Pending, w') => (Pending, w')
  | (r, w') =>
      match f w' with
      | (Normal _, w'') => (r, w'')
      | (Throw e, w'') => (Throw e, w'')
      | (Pending, w'') => (Pending, w'')
      end
  end.

Definition get_this : M Job := fun w => (Normal (this w), w).

Definition get_attrs : M JobAttrs := fun w => (Normal (attrs (this w)), w).

Definition get_trace : M (list Effect) := fun w => (Normal (trace w), w).

Definition assign (f : JobAttrs -> JobAttrs) : M unit := fun w =>
  (Normal tt, mkWorld (with_attrs f (this w)) (ticks w) (trace w)).

Definition record (e : Effect) : M unit := fun w =>
  (Normal tt, mkWorld (this w) (ticks w) (trace w ++ [e])).

(** Evaluating an expression that yields a value or raises. *)
Definition eval {A} (r : JsVal + A) : M A :=
  match r with inl e => throw e | inr a => mret a end.

Definition raise_if (r : option JsVal) : M unit :=
  match r with Some e => throw e | None => mret tt end.

(** The events whose emission the trace records, by name. *)
Definition emitted (t : list Effect) : list string :=
  omap (fun e => match e with Emitted ev _ _ => Some ev | _ => None end) t.

(** Awaiting the promise built around a handler that takes a completion
    callback: the callback rejects on a truthy error and resolves otherwise,
    a synchronous throw and a rejection of the returned promise reject, and
    only the first of these settles the promise. *)
Definition callback_outcome (err : JsVal) : Completion unit :=
  if truthy err then Throw err else Normal tt.

Definition settle_callback_style (h : HandlerRun) : Completion unit :=
  match callback h with
  | Some (DuringCall, err) => callback_outcome err
  | cb =>
      match invocation h with
      | Throws e => Throw e
      | Returns (RPromise (Rejects e)) =>
          match cb with
          | Some (BeforeResult, err) => callback_outcome err
          | _ => Throw e
          end
      | Returns _ =>
          match cb with
          | Some (_, err) => callback_outcome err
          | None => Pending
          end
      end
  end.

(** [await definition.fn(this)] *)
Definition settle_direct (h : HandlerRun) : Completion unit :=
  match invocation h with
  | Throws e => Throw e
  | Returns RPlain => Normal tt
  | Returns (RPromise Resolves) => Normal tt
  | Returns (RPromise (Rejects e)) => Throw e
  | Returns (RPromise NeverSettles) => Pending
  end.

(** How awaiting a handler of the given definition on the given job ends:
    [fn.length === 2] selects the callback convention. *)
Definition handler_outcome (definition : JobDefinition) (j : Job)
  : Completion unit :=
  if Nat.eqb (fn_length definition) 2
  then settle_callback_style (fn definition j)
  else settle_direct (fn definition j).

Section JobMethods.

Context (agenda : Agenda) (imports : Imports).

(** [new Date()] *)
Definition new_Date : M Date := fun w =>
  (Normal (ValidDate (Date_now imports (ticks w))),
   mkWorld (this w) (S (ticks w)) (trace w)).

(** [Date.now()] *)
Definition now_ms : M Z := fun w =>
  (Normal (Date_now imports (ticks w)),
   mkWorld (this w) (S (ticks w)) (trace w)).

(** [this.agenda.db.saveJobState(this)] *)
Definition saveJobState : M unit :=
  j ← get_this;
  t ← get_trace;
  record (SavedJobState (attrs j));;
  raise_if (db_saveJobState agenda t j).

(** [this.agenda.emit(event, ...)] *)
Definition emit (event : string) (error : option JsVal) : M unit :=
  j ← get_this;
  t ← get_trace;
  record (Emitted event error (attrs j));;
  raise_if (emit_raises agenda t event error j).

(** [constructor(agenda, args, byJobProcessor = false)], from the clock
    reading [tick] on. *)
Definition constructor (args : JobAttrs) (byJobProcessor : bool) (tick : nat)
  : Job * nat :=
  let priority' := VNum (parsePriority imports (priority args)) in
  let '(nextRunAt', tick') :=
    match nextRunAt args with
    | JUndefined => (JSome (ValidDate (Date_now imports tick)), S tick)
    | v => (v, tick)
    end in
  let disabled' :=
    match disabled args with
    | JSome b => JSome b
    | _ => JSome false
    end in
  (mkJob
     (mkJobAttrs (_id args) (name args) (type args) priority' (data args)
        nextRunAt' (lastRunAt args) (lastFinishedAt args) (lockedAt args)
        (failCount args) (failReason args) (failedAt args) disabled'
        (unique args) (uniqueOpts args) (repeatInterval args)
        (repeatTimezone args) (repeatAt args) (progress args))
     byJobProcessor VUndefined,
   tick').

(** [fail(reason)] *)
Definition fail (reason : JsVal) : M unit :=
  assign (set_failReason
            (match reason with VErr _ message => VStr message | _ => reason end));;
  a ← get_attrs;
  assign (set_failCount (JSome (or_default (failCount a) 0 + 1)));;
  now ← new_Date;
  assign (set_failedAt (JSome now));;
  assign (set_lastFinishedAt (JSome now)).

(** [fetchStatus()] *)
Definition fetchStatus : M unit :=
  a ← get_attrs;
  t ← get_trace;
  record (GotJobs (_id a));;
  dbJob ← eval (db_getJobs agenda t (_id a));
  match dbJob with
  | [] =>
      throw (VErr KError
               ("job with id " +:+ to_string (_id a) +:+ " not found in database"))
  | first :: _ =>
      assign (set_lastRunAt (lastRunAt first));;
      assign (set_lockedAt (lockedAt first));;
      assign (set_lastFinishedAt (lastFinishedAt first))
  end.

(** [isRunning()] *)
Definition isRunning : M bool :=
  j ← get_this;
  (if negb (byJobProcessor j) then fetchStatus else mret tt);;
  a ← get_attrs;
  match lastRunAt a with
  | JSome lastRun =>
      match lastFinishedAt a with
      | JSome lastFinished =>
          if present (lockedAt a)
             && num_gt (getTime lastRun) (getTime lastFinished)
          then mret true
          else mret false
      | _ => mret true
      end
  | _ => mret false
  end.

(** [isExpired()]: reading [lockLifetime] of a missing definition is a
    [TypeError].  The deadline [Date.now() - lockLifetime] is taken as a
    valid date (both operands are integers of ordinary size). *)
Definition isExpired : M bool :=
  a ← get_attrs;
  let definition := definitions agenda !! name a in
  now ← now_ms;
  lifetime ← match definition with
             | Some d => mret (lockLifetime d)
             | None =>
                 throw (VErr KTypeError
                   "Cannot read properties of undefined (reading 'lockLifetime')")
             end;
  let lockDeadline := ValidDate (now - lifetime) in
  a ← get_attrs;
  match lockedAt a with
  | JSome locked =>
      if num_lt (getTime locked) (getTime lockDeadline)
      then mret true
      else mret false
  | _ => mret false
  end.

(** [isDead()] *)
Definition isDead : M bool :=
  j ← get_this;
  (if negb (byJobProcessor j) then fetchStatus else mret tt);;
  isExpired.

(** [touch(progress)] *)
Definition touch (progress : JsVal) : M unit :=
  j ← get_this;
  if truthy (canceled j)
  then throw (VErr KError
                ("job " +:+ name (attrs j) +:+ " got canceled already: "
                 +:+ to_string (canceled j) +:+ "!"))
  else
    now ← new_Date;
    assign (set_lockedAt (JSome now));;
    assign (set_progress progress);;
    saveJobState.

(** [computeNextRunAt()]; the argument of each [log] call formats the new
    [nextRunAt] with [toISOString], inside the [try]. *)
Definition computeNextRunAt : M unit :=
  try_catch
    (a ← get_attrs;
     if truthy (repeatInterval a) then
       d ← eval (computeFromInterval imports a);
       assign (set_nextRunAt (JSome d));;
       raise_if (toISOString_raises d)
     else if truthy (repeatAt a) then
       d ← eval (computeFromRepeatAt imports a);
       assign (set_nextRunAt (JSome d));;
       raise_if (toISOString_raises d)
     else
       assign (set_nextRunAt JNull))
    (fun error =>
       assign (set_nextRunAt JNull);;
       fail error).

(** The [options] argument of [repeatEvery]. *)
Record RepeatOptions := mkRepeatOptions {
  timezone : JsVal;
  skipImmediate : JsVal
}.

(** [repeatEvery(interval, options = {})] *)
Definition repeatEvery (interval : JsVal) (options : RepeatOptions) : M unit :=
  assign (set_repeatInterval interval);;
  assign (set_repeatTimezone (timezone options));;
  if truthy (skipImmediate options) then
    a ← get_attrs;
    anchor ← match nextRunAt a with
             | JSome d => mret (JSome d)
             | _ => d ← new_Date; mret (JSome d)
             end;
    assign (set_lastRunAt anchor);;
    computeNextRunAt;;
    assign (set_lastRunAt JUndefined)
  else
    computeNextRunAt.

(** Calling the handler and awaiting its completion, in the convention that
    [fn.length] selects. *)
Definition call_handler (definition : JobDefinition) : M unit := fun w =>
  (handler_outcome definition (this w),
   mkWorld (job_after (fn definition (this w)))
     (ticks w + readings (fn definition (this w)))%nat
     (trace w ++ map SavedJobState (saves (fn definition (this w))))).

(** The blocks of [run()], in the order of the source. *)

(** Before the [try]: stamp [lastRunAt], recompute [nextRunAt], save. *)
Definition run_prologue : M unit :=
  now ← new_Date;
  assign (set_lastRunAt (JSome now));;
  computeNextRunAt;;
  saveJobState.

(** The [try] block, for the registry entry looked up on entry. *)
Definition run_try (definition : option JobDefinition) : M unit :=
  emit "start" None;;
  a ← get_attrs;
  emit ("start:" +:+ name a) None;;
  match definition with
  | None => throw (VErr KError "Undefined job")
  | Some d =>
      call_handler d;;
      now ← new_Date;
      assign (set_lastFinishedAt (JSome now));;
      emit "success" None;;
      a ← get_attrs;
      emit ("success:" +:+ name a) None
  end.

(** The [catch (error)] block; its last [log] call reads [error.message]. *)
Definition run_catch (error : JsVal) : M unit :=
  fail error;;
  emit "fail" (Some error);;
  a ← get_attrs;
  emit ("fail:" +:+ name a) (Some error);;
  _ ← eval (get_message error);
  mret tt.

(** The [finally] block; a failure of the save is ignored. *)
Definition run_finally : M unit :=
  assign (set_lockedAt JUndefined);;
  try_catch saveJobState (fun err => mret tt);;
  emit "complete" None;;
  a ← get_attrs;
  emit ("complete:" +:+ name a) None.

(** [run()] *)
Definition run : M unit :=
  a ← get_attrs;
  let definition := definitions agenda !! name a in
  run_prologue;;
  try_finally (try_catch (run_try definition) run_catch) run_finally.

End JobMethods.

(** ** Reading the outcome of a method *)

(** How the method ended, and the attributes, trace and clock it left. *)
Definition outcome {A} (m : M A) (w : World) : Completion A := (m w).1.

Definition attrs_after {A} (m : M A) (w : World) : JobAttrs :=
  attrs (this (m w).2).

Definition trace_after {A} (m : M A) (w : World) : list Effect :=
  trace (m w).2.

(** The failure counter as the data model reads it: a missing counter
    counts as 0. *)
Definition failures (a : JobAttrs) : Z :=
  match failCount a with JSome n => n | _ => 0 end.

(** "[d] is strictly newer than [e]" and "[d] is strictly older than the
    instant [t]", on dates that may be invalid: an invalid date is neither
    newer nor older than anything. *)
Definition strictly_newer (d e : Date) : Prop :=
  match getTime d, getTime e with
  | Some x, Some y => y < x
  | _, _ => False
  end.

Definition strictly_older_than (d : Date) (t : Z) : Prop :=
  match getTime d with
  | Some x => x < t
  | None => False
  end.

(** The truth table of section 4.4 of the specification for [isRunning],
    row by row, over the three status fields. *)
Definition isRunning_table (a : JobAttrs) (b : bool) : Prop :=
  (present (lastRunAt a) = false -> b = false) /\
  (present (lastRunAt a) = true -> present (lastFinishedAt a) = false ->
   b = true) /\
  (forall r f, lastRunAt a = JSome r -> lastFinishedAt a = JSome f ->
     present (lockedAt a) = true -> strictly_newer r f -> b = true) /\
  (forall r f, lastRunAt a = JSome r -> lastFinishedAt a = JSome f ->
     ~ (present (lockedAt a) = true /\ strictly_newer r f) -> b = false).

(** The answer [isRunning] reads off the status fields once they are up to
    date. *)
Definition running_answer (a : JobAttrs) : bool :=
  match lastRunAt a, lastFinishedAt a with
  | JSome r, JSome f => present (lockedAt a) && num_gt (getTime r) (getTime f)
  | JSome _, _ => true
  | _, _ => false
  end.

(** The exception, if any, that the [try] block of [computeNextRunAt]
    raises on the attributes [a]: the one of the strategy that the repeat
    configuration selects, or the [RangeError] of formatting an invalid date
    that the strategy returned. *)
Definition recurrence_raises (imports : Imports) (a : JobAttrs) : option JsVal :=
  if truthy (repeatInterval a) then
    match computeFromInterval imports a with
    | inl e => Some e
    | inr d => toISOString_raises d
    end
  else if truthy (repeatAt a) then
    match computeFromRepeatAt imports a with
    | inl e => Some e
    | inr d => toISOString_raises d
    end
  else None.


(** The listeners of an event never raise. *)
Definition quiet (agenda : Agenda) (event : string) : Prop :=
  forall t error j, emit_raises agenda t event error j = None.


(** ** The scheduling methods, [schedule] and [toJson] *)

Definition set_priority (v : JsVal) (a : JobAttrs) : JobAttrs :=
  mkJobAttrs (_id a) (name a) (type a) v (data a) (nextRunAt a)
    (lastRunAt a) (lastFinishedAt a) (lockedAt a) (failCount a) (failReason a)
    (failedAt a) (disabled a) (unique a) (uniqueOpts a) (repeatInterval a)
    (repeatTimezone a) (repeatAt a) (progress a).

Definition set_disabled (v : Nullable bool) (a : JobAttrs) : JobAttrs :=
  mkJobAttrs (_id a) (name a) (type a) (priority a) (data a) (nextRunAt a)
    (lastRunAt a) (lastFinishedAt a) (lockedAt a) (failCount a) (failReason a)
    (failedAt a) v (unique a) (uniqueOpts a) (repeatInterval a)
    (repeatTimezone a) (repeatAt a) (progress a).

Definition set_unique (v : JsVal) (a : JobAttrs) : JobAttrs :=
  mkJobAttrs (_id a) (name a) (type a) (priority a) (data a) (nextRunAt a)
    (lastRunAt a) (lastFinishedAt a) (lockedAt a) (failCount a) (failReason a)
    (failedAt a) (disabled a) v (uniqueOpts a) (repeatInterval a)
    (repeatTimezone a) (repeatAt a) (progress a).

Definition set_uniqueOpts (v : JsVal) (a : JobAttrs) : JobAttrs :=
  mkJobAttrs (_id a) (name a) (type a) (priority a) (data a) (nextRunAt a)
    (lastRunAt a) (lastFinishedAt a) (lockedAt a) (failCount a) (failReason a)
    (failedAt a) (disabled a) (unique a) v (repeatInterval a)
    (repeatTimezone a) (repeatAt a) (progress a).

Definition set_repeatAt (v : JsVal) (a : JobAttrs) : JobAttrs :=
  mkJobAttrs (_id a) (name a) (type a) (priority a) (data a) (nextRunAt a)
    (lastRunAt a) (lastFinishedAt a) (lockedAt a) (failCount a) (failReason a)
    (failedAt a) (disabled a) (unique a) (uniqueOpts a) (repeatInterval a)
    (repeatTimezone a) v (progress a).

(** A value that may also be an object: a [Date], or any other object,
    known by its reference only (a payload, an options object). *)
Inductive AttrValue :=
| APrim (v : JsVal)
| ADate (d : Date)
| AObject (ref : positive).

Definition truthy_attr (x : AttrValue) : bool :=
  match x with
  | APrim v => truthy v
  | ADate _ | AObject _ => true
  end.

(** What dist/Job.js uses of dates beyond the clock: the runtime's parser
    of date strings, the string an opaque object converts to, the date.js
    module (it reads the clock, here at the given reading, and returns a date
    or raises), and the [datefields] list of types/JobParameters. *)
Record DateLib := mkDateLib {
  Date_parse : string -> Date;
  object_string : positive -> string;
  date_js : nat -> AttrValue -> JsVal + Date;
  datefields : list string
}.

(** [new Date(value)]: a date is copied; any other object and a string go
    through the parser; the remaining primitives are converted to a number,
    [undefined] giving NaN.  Numbers are integers of ordinary size, inside
    the range of instants a date can hold. *)
Definition new_Date_of (lib : DateLib) (x : AttrValue) : Date :=
  match x with
  | ADate d => d
  | AObject ref => Date_parse lib (object_string lib ref)
  | APrim (VStr s) => Date_parse lib s
  | APrim (VErr k m) => Date_parse lib (to_string (VErr k m))
  | APrim (VNum n) => ValidDate n
  | APrim (VBool b) => ValidDate (if b then 1 else 0)
  | APrim VNull => ValidDate 0
  | APrim VUndefined => InvalidDate
  end.

Section SchedulingMethods.

Context (imports : Imports) (lib : DateLib).

(** [repeatAt(time)] *)
Definition method_repeatAt (time : JsVal) : M unit :=
  assign (set_repeatAt time).

(** [disable()] *)
Definition disable : M unit := assign (set_disabled (JSome true)).

(** [enable()] *)
Definition enable : M unit := assign (set_disabled (JSome false)).

(** [unique(unique, opts)] *)
Definition method_unique (unique opts : JsVal) : M unit :=
  assign (set_unique unique);;
  assign (set_uniqueOpts opts).

(** [schedule(time)] *)
Definition schedule (time : AttrValue) : M unit :=
  let d := new_Date_of lib time in
  match getTime d with
  | None =>
      fun w =>
        match date_js lib (ticks w) time with
        | inl e => (Throw e, mkWorld (this w) (S (ticks w)) (trace w))
        | inr parsed =>
            (Normal tt,
             mkWorld (with_attrs (set_nextRunAt (JSome parsed)) (this w))
               (S (ticks w)) (trace w))
        end
  | Some _ => assign (set_nextRunAt (JSome d))
  end.

(** [priority(priority)] *)
Definition method_priority (p : JsVal) : M unit :=
  assign (set_priority (VNum (parsePriority imports p))).

(** [toJson()], on the attributes as the object they are: the keys present
    and their values. *)
Definition toJson (attrs : gmap string AttrValue) : gmap string AttrValue :=
  map_imap
    (fun key v =>
       Some (if bool_decide (key ∈ datefields lib) && truthy_attr v
             then ADate (new_Date_of lib v)
             else v))
    attrs.

End SchedulingMethods.

(** A call of one of the chainable scheduling methods. *)
Inductive SchedulingCall :=
| CallRepeatAt (time : JsVal)
| CallDisable
| CallEnable
| CallUnique (unique opts : JsVal)
| CallSchedule (time : AttrValue)
| CallPriority (p : JsVal).

Definition perform (imports : Imports) (lib : DateLib) (c : SchedulingCall)
  : M unit :=
  match c with
  | CallRepeatAt time => method_repeatAt time
  | CallDisable => disable
  | CallEnable => enable
  | CallUnique u o => method_unique u o
  | CallSchedule time => schedule lib time
  | CallPriority p => method_priority imports p
  end.

(** A chain [job.m1(...).m2(...)...] of scheduling calls. *)
Fixpoint chain (imports : Imports) (lib : DateLib) (cs : list SchedulingCall)
  : M unit :=
  match cs with
  | [] => mret tt
  | c :: rest => perform imports lib c;; chain imports lib rest
  end.

(** [fail] called once for each reason of a list, in order. *)
Fixpoint fail_each (imports : Imports) (reasons : list JsVal) : M unit :=
  match reasons with
  | [] => mret tt
  | reason :: rest => fail imports reason;; fail_each imports rest
  end.

(** The attributes of a typed record as an object, every field a key. *)
Definition nullable_value {A} (f : A -> AttrValue) (o : Nullable A) : AttrValue :=
  match o with
  | JUndefined => APrim VUndefined
  | JNull => APrim VNull
  | JSome a => f a
  end.

Definition object_of_attrs (a : JobAttrs) : gmap string AttrValue :=
  list_to_map
    [("_id", APrim (_id a)); ("name", APrim (VStr (name a)));
     ("type", APrim (type a)); ("priority", APrim (priority a));
     ("data", APrim (data a));
     ("nextRunAt", nullable_value ADate (nextRunAt a));
     ("lastRunAt", nullable_value ADate (lastRunAt a));
     ("lastFinishedAt", nullable_value ADate (lastFinishedAt a));
     ("lockedAt", nullable_value ADate (lockedAt a));
     ("failCount", nullable_value (fun n => APrim (VNum n)) (failCount a));
     ("failReason", APrim (failReason a));
     ("failedAt", nullable_value ADate (failedAt a));
     ("disabled", nullable_value (fun b => APrim (VBool b)) (disabled a));
     ("unique", APrim (unique a)); ("uniqueOpts", APrim (uniqueOpts a));
     ("repeatInterval", APrim (repeatInterval a));
     ("repeatTimezone", APrim (repeatTimezone a));
     ("repeatAt", APrim (repeatAt a)); ("progress", APrim (progress a))].

(** The keys of a typed record that hold dates. *)
Definition date_keys : list string :=
  ["nextRunAt"; "lastRunAt"; "lastFinishedAt"; "lockedAt"; "failedAt"].

(** A method only ever appends to the trace of outside calls. *)
Definition appends {A} (m : M A) : Prop :=
  forall w, exists more, trace (m w).2 = trace w ++ more.


(** The attributes with the three status fields blanked: two records agree
    on it exactly when they differ in those fields at most. *)
Definition without_status (a : JobAttrs) : JobAttrs :=
  set_lastFinishedAt JUndefined (set_lockedAt JUndefined (set_lastRunAt JUndefined a)).

(** The attributes with the fields that the scheduling methods write
    blanked. *)
Definition without_scheduling (a : JobAttrs) : JobAttrs :=
  set_priority VUndefined
    (set_disabled JUndefined
       (set_unique VUndefined
          (set_uniqueOpts VUndefined
             (set_repeatAt VUndefined (set_nextRunAt JUndefined a))))).

(** The message of the error that [fail] stores for a reason. *)
Definition reason_text (reason : JsVal) : JsVal :=
  match reason with VErr _ message => VStr message | _ => reason end.


(** ** Sample collaborators and jobs *)

(** A clock that advances ten milliseconds per reading. *)
Definition sample_clock (n : nat) : Z := 1000000 + 10 * Z.of_nat n.

(** An interval strategy that understands millisecond intervals only: it
    adds the interval to the last run, and rejects every other interval. *)
Definition sample_computeFromInterval (a : JobAttrs) : JsVal + Date :=
  match repeatInterval a, lastRunAt a with
  | VNum n, JSome (ValidDate t) => inr (ValidDate (t + n))
  | VNum n, _ => inr (ValidDate n)
  | _, _ =>
      inl (VErr KError
             "failed to calculate nextRunAt due to invalid repeat interval")
  end.

Definition sample_computeFromRepeatAt (a : JobAttrs) : JsVal + Date :=
  inl (VErr KError "failed to calculate repeatAt due to invalid format").

Definition sample_parsePriority (v : JsVal) : Z :=
  match v with VNum n => n | _ => 0 end.

Definition sample_imports : Imports :=
  mkImports sample_clock sample_computeFromInterval sample_computeFromRepeatAt
    sample_parsePriority.

(** A handler that does nothing but throw, one that throws [null], and one
    that returns a resolved promise. *)
Definition boom : JsVal := VErr KError "boom".

Definition throwing_handler : JobDefinition :=
  mkJobDefinition 1 (fun j => mkHandlerRun j 0 [] (Throws boom) None) 600000.

Definition null_throwing_handler : JobDefinition :=
  mkJobDefinition 1 (fun j => mkHandlerRun j 0 [] (Throws VNull) None) 600000.

Definition resolving_handler : JobDefinition :=
  mkJobDefinition 1
    (fun j => mkHandlerRun j 0 [] (Returns (RPromise Resolves)) None) 600000.

Definition sample_definitions : gmap string JobDefinition :=
  <["send email" := throwing_handler]>
    (<["throw null" := null_throwing_handler]>
       (<["resize image" := resolving_handler]> ∅)).

(** A job of the given type, locked, never run, with an optional interval. *)
Definition sample_attrs (type_name : string) (interval : JsVal) : JobAttrs :=
  mkJobAttrs (VStr "65f0c0ffee") type_name (VStr "normal") (VNum 0) VUndefined
    (JSome (ValidDate 999000)) JUndefined JUndefined (JSome (ValidDate 400000))
    (JSome 0) VUndefined JUndefined (JSome false) VUndefined VUndefined
    interval VUndefined VUndefined VUndefined.

Definition sample_world (type_name : string) (interval : JsVal) : World :=
  mkWorld (mkJob (sample_attrs type_name interval) true VUndefined) 0 [].

(** The record the store holds for a job that started and has not finished. *)
Definition stored_record : JobAttrs :=
  set_lastRunAt (JSome (ValidDate 990000)) (sample_attrs "send email" VUndefined).

(** A healthy agenda: saves succeed, no listener raises. *)
Definition sample_agenda : Agenda :=
  mkAgenda sample_definitions (fun _ _ => None) (fun _ _ => inr [stored_record])
    (fun _ _ _ _ => None).



(** A client-side handle on the sample job. *)
Definition client_world : World :=
  mkWorld (mkJob (sample_attrs "send email" VUndefined) false VUndefined) 0 [].

(** A handler in the callback convention that returns a resolved promise
    and never invokes the callback. *)
Definition forgetful_handler : JobDefinition :=
  mkJobDefinition 2
    (fun j => mkHandlerRun j 0 [] (Returns (RPromise Resolves)) None) 600000.

(** A handler in the callback convention that reports an error through
    the callback and whose returned promise later resolves. *)
Definition callback_error_handler : JobDefinition :=
  mkJobDefinition 2
    (fun j => mkHandlerRun j 0 [] (Returns (RPromise Resolves))
                (Some (DuringCall, VErr KError "disk full")))
    600000.

(** What a heartbeat [job.touch(50)] at the second clock reading does to a
    job: the state it leaves, which is also the state it saves. *)
Definition heartbeat (j : Job) : Job :=
  with_attrs
    (fun a => set_progress (VNum 50)
                (set_lockedAt (JSome (ValidDate (sample_clock 1))) a))
    j.

(** A handler that sends one heartbeat and then completes, and one that
    sends one heartbeat and then returns a promise that is rejected. *)
Definition heartbeat_handler : JobDefinition :=
  mkJobDefinition 1
    (fun j => mkHandlerRun (heartbeat j) 1 [attrs (heartbeat j)]
                (Returns (RPromise Resolves)) None)
    600000.

Definition heartbeat_then_reject_handler : JobDefinition :=
  mkJobDefinition 1
    (fun j => mkHandlerRun (heartbeat j) 1 [attrs (heartbeat j)]
                (Returns (RPromise (Rejects (VErr KError "quota exceeded")))) None)
    600000.

Definition wide_definitions : gmap string JobDefinition :=
  <["send newsletter" := heartbeat_handler]>
    (<["sync folders" := heartbeat_then_reject_handler]>
       (<["export data" := callback_error_handler]>
          (<["build report" := forgetful_handler]> sample_definitions))).

(** A healthy agenda that also knows the forgetful handler. *)
Definition patient_agenda : Agenda :=
  mkAgenda wide_definitions (fun _ _ => None) (fun _ _ => inr [stored_record])
    (fun _ _ _ _ => None).

(** An agenda whose store accepts the first save only and holds no record,
    and whose listeners of the complete event raise. *)
Definition hostile_agenda : Agenda :=
  mkAgenda sample_definitions
    (fun t _ => match t with [] => None | _ => Some (VErr KError "record removed") end)
    (fun _ _ => inr [])
    (fun _ event _ _ =>
       if String.eqb event "complete"
       then Some (VErr KError "listener failed") else None).


(** Imports whose interval strategy answers with an invalid date. *)
Definition careless_imports : Imports :=
  mkImports sample_clock (fun _ => inr InvalidDate) sample_computeFromRepeatAt
    sample_parsePriority.

(** A runtime that parses no string, with a date.js that answers "now". *)
Definition sample_lib : DateLib :=
  mkDateLib (fun _ => InvalidDate) (fun _ => "[object Object]")
    (fun tick _ => inr (ValidDate (sample_clock tick))) date_keys.


(** * Properties *)

Section JobProperties.

Context (agenda : Agenda) (imports : Imports).

(** Running the monadic plumbing of a method on a world. *)
Ltac step_m :=
  cbv beta iota zeta delta
    [mbind M_bind mret M_ret throw try_catch try_finally get_this get_attrs
     get_trace assign record eval raise_if new_Date now_ms
     saveJobState emit with_attrs];
  cbn [this ticks trace attrs byJobProcessor canceled fst snd].

Lemma or_default_failures (a : JobAttrs) : or_default (failCount a) 0 = failures a.
Proof.
  unfold or_default, failures, truthy_num.
  destruct (failCount a) as [| |n]; try reflexivity.
  destruct (Z.eqb_spec n 0); simpl; congruence.
Qed.

(** One call of [fail], as an equation on the whole world. *)
Lemma fail_run (reason : JsVal) (w : World) :
  fail imports reason w =
  (Normal tt,
   mkWorld
     (with_attrs
        (fun a =>
           set_lastFinishedAt (JSome (ValidDate (Date_now imports (ticks w))))
             (set_failedAt (JSome (ValidDate (Date_now imports (ticks w))))
                (set_failCount (JSome (failures a + 1))
                   (set_failReason
                      (match reason with VErr _ m => VStr m | _ => reason end)
                      a))))
        (this w))
     (S (ticks w)) (trace w)).
Proof.
  unfold fail, mbind, M_bind, assign, get_attrs, new_Date, with_attrs; simpl.
  rewrite or_default_failures. reflexivity.
Qed.

(** C5. [fail(reason)] ends normally and leaves [failReason] equal to the
    message of [reason] when [reason] is an error object and to [reason]
    itself otherwise, [failCount] one above its previous value (a missing
    counter counting as 0), and [failedAt] and [lastFinishedAt] both equal to
    the clock reading of the call.  Two calls in sequence raise [failCount]
    by exactly 2 and leave the [failReason] of the second call. *)
Theorem fail_accounting (reason second : JsVal) (w : World) :
  outcome (fail imports reason) w = Normal tt /\
  match reason with
  | VErr _ message => failReason (attrs_after (fail imports reason) w) = VStr message
  | _ => failReason (attrs_after (fail imports reason) w) = reason
  end /\
  failCount (attrs_after (fail imports reason) w)
    = JSome (failures (attrs (this w)) + 1) /\
  failedAt (attrs_after (fail imports reason) w)
    = JSome (ValidDate (Date_now imports (ticks w))) /\
  lastFinishedAt (attrs_after (fail imports reason) w)
    = JSome (ValidDate (Date_now imports (ticks w))) /\
  outcome (fail imports reason;; fail imports second) w = Normal tt /\
  failCount (attrs_after (fail imports reason;; fail imports second) w)
    = JSome (failures (attrs (this w)) + 2) /\
  failReason (attrs_after (fail imports reason;; fail imports second) w)
    = failReason (attrs_after (fail imports second) w).
Proof.
  unfold outcome, attrs_after, mbind, M_bind.
  rewrite !fail_run; simpl.
  repeat split; try (destruct reason; reflexivity).
  unfold failures at 1; simpl. f_equal. lia.
Qed.

(** C10. The constructor defaults [nextRunAt] to the current time only when
    the specification object leaves it [undefined]: an explicit [null] is
    kept as [null] (the job will not run again), and a given date is kept. *)
Theorem constructor_nextRunAt_default (args : JobAttrs) (byProcessor : bool)
    (tick : nat) (d : Date) :
  nextRunAt (attrs (constructor imports (set_nextRunAt JNull args) byProcessor tick).1)
    = JNull /\
  nextRunAt (attrs (constructor imports (set_nextRunAt JUndefined args) byProcessor tick).1)
    = JSome (ValidDate (Date_now imports tick)) /\
  nextRunAt (attrs (constructor imports (set_nextRunAt (JSome d) args) byProcessor tick).1)
    = JSome d.
Proof. repeat split. Qed.

Lemma running_answer_table (a : JobAttrs) : isRunning_table a (running_answer a).
Proof.
  unfold isRunning_table, running_answer, strictly_newer.
  destruct (lastRunAt a) as [| |r], (lastFinishedAt a) as [| |f]; simpl;
    repeat split; try congruence; intros r' f' Hr Hf; try congruence;
    inversion Hr; inversion Hf; subst r' f'.
  - intros ->; simpl. destruct (getTime r), (getTime f); simpl; try tauto.
    intros; apply Z.ltb_lt; assumption.
  - intros Hn. destruct (present (lockedAt a)); simpl; [|reflexivity].
    destruct (getTime r) as [x|], (getTime f) as [y|]; simpl; try reflexivity.
    apply Z.ltb_ge. destruct (Z.le_gt_cases x y); [assumption|].
    exfalso; apply Hn; split; [reflexivity|lia].
Qed.

Lemma isRunning_unfold (w : World) :
  isRunning agenda w =
  match (if negb (byJobProcessor (this w)) then fetchStatus agenda else mret tt) w with
  | (Normal _, w') => (Normal (running_answer (attrs (this w'))), w')
  | (Throw e, w') => (Throw e, w')
  | (Pending, w') => (Pending, w')
  end.
Proof.
  unfold isRunning, mbind, M_bind, get_this, get_attrs, running_answer; simpl.
  destruct ((if negb (byJobProcessor (this w)) then fetchStatus agenda else mret tt) w)
    as [[u|e|] w']; try reflexivity.
  destruct (lastRunAt (attrs (this w'))) as [| |r]; try reflexivity.
  destruct (lastFinishedAt (attrs (this w'))) as [| |f]; try reflexivity.
  destruct (present (lockedAt (attrs (this w'))) && num_gt (getTime r) (getTime f));
    reflexivity.
Qed.

(** [fetchStatus] when the store holds a record for the job's id. *)
Lemma fetchStatus_found (w : World) (first : JobAttrs) (others : list JobAttrs) :
  db_getJobs agenda (trace w) (_id (attrs (this w))) = inr (first :: others) ->
  fetchStatus agenda w =
  (Normal tt,
   mkWorld
     (with_attrs
        (fun a => set_lastFinishedAt (lastFinishedAt first)
                    (set_lockedAt (lockedAt first)
                       (set_lastRunAt (lastRunAt first) a)))
        (this w))
     (ticks w) (trace w ++ [GotJobs (_id (attrs (this w)))])).
Proof.
  intros Hdb.
  unfold fetchStatus, mbind, M_bind, get_attrs, get_trace, record; simpl.
  rewrite Hdb; reflexivity.
Qed.

(** C3. [isRunning()] follows the truth table: false when [lastRunAt] is
    absent; true when [lastRunAt] is present and [lastFinishedAt] absent;
    true when [lockedAt] is present and [lastRunAt] is strictly newer than
    [lastFinishedAt]; false otherwise.  On the instance the job processor
    executes the fields are the instance's own and nothing else changes; on a
    client handle they are the ones of the record the store returns for the
    job's id, which the handle adopts. *)
Theorem isRunning_truth_table (w : World) :
  (byJobProcessor (this w) = true ->
   exists b, isRunning agenda w = (Normal b, w) /\
             isRunning_table (attrs (this w)) b) /\
  (byJobProcessor (this w) = false ->
   forall first others,
     db_getJobs agenda (trace w) (_id (attrs (this w))) = inr (first :: others) ->
     exists b w', isRunning agenda w = (Normal b, w') /\
                  isRunning_table first b /\
                  lastRunAt (attrs (this w')) = lastRunAt first /\
                  lastFinishedAt (attrs (this w')) = lastFinishedAt first /\
                  lockedAt (attrs (this w')) = lockedAt first).
Proof.
  split.
  - intros Hp. exists (running_answer (attrs (this w))). split.
    + rewrite isRunning_unfold, Hp; reflexivity.
    + apply running_answer_table.
  - intros Hp first others Hdb.
    rewrite isRunning_unfold, Hp; cbn [negb].
    rewrite (fetchStatus_found _ _ _ Hdb).
    eexists _, _. split; [reflexivity|]. simpl.
    split; [|repeat split].
    pose proof (running_answer_table first) as Ht.
    unfold isRunning_table, running_answer in *. simpl. exact Ht.
Qed.

(** [isExpired] for a registered job type, as an equation. *)
Lemma isExpired_registered (w : World) (d : JobDefinition) :
  definitions agenda !! name (attrs (this w)) = Some d ->
  isExpired agenda imports w =
  (Normal
     match lockedAt (attrs (this w)) with
     | JSome locked =>
         num_lt (getTime locked)
           (Some (Date_now imports (ticks w) - lockLifetime d))
     | _ => false
     end,
   mkWorld (this w) (S (ticks w)) (trace w)).
Proof.
  intros Hd.
  unfold isExpired, mbind, M_bind, get_attrs, now_ms; simpl.
  rewrite Hd; simpl.
  destruct (lockedAt (attrs (this w))) as [| |locked]; try reflexivity.
  destruct (num_lt _ _); reflexivity.
Qed.

(** C6. For a job whose type is registered, [isExpired()] answers true
    exactly when [lockedAt] is present and strictly older than the clock
    reading minus the lease duration of the type.  A lease whose age equals
    the lease duration is not expired; one millisecond older, it is. *)
Theorem isExpired_strict_deadline (w : World) (d : JobDefinition) :
  definitions agenda !! name (attrs (this w)) = Some d ->
  let now := Date_now imports (ticks w) in
  (exists b, outcome (isExpired agenda imports) w = Normal b /\
     (b = true <->
      exists locked, lockedAt (attrs (this w)) = JSome locked /\
                     strictly_older_than locked (now - lockLifetime d))) /\
  (lockedAt (attrs (this w)) = JSome (ValidDate (now - lockLifetime d)) ->
   outcome (isExpired agenda imports) w = Normal false) /\
  (lockedAt (attrs (this w)) = JSome (ValidDate (now - lockLifetime d - 1)) ->
   outcome (isExpired agenda imports) w = Normal true).
Proof.
  intros Hd now. unfold outcome. rewrite (isExpired_registered _ _ Hd); simpl.
  fold now. split; [|split].
  - eexists; split; [reflexivity|].
    unfold strictly_older_than.
    destruct (lockedAt (attrs (this w))) as [| |locked].
    + split; [discriminate|]. intros (l & Hl & _); discriminate.
    + split; [discriminate|]. intros (l & Hl & _); discriminate.
    + destruct locked as [ms|]; simpl.
      * rewrite Z.ltb_lt. split.
        -- intros Hlt. exists (ValidDate ms). split; [reflexivity|exact Hlt].
        -- intros (l & Hl & Hlt). inversion Hl; subst l. exact Hlt.
      * split; [discriminate|].
        intros (l & Hl & Hlt). inversion Hl; subst l. destruct Hlt.
  - intros ->; simpl. rewrite Z.ltb_irrefl. reflexivity.
  - intros ->; simpl. f_equal. apply Z.ltb_lt. lia.
Qed.

(** [touch] on a job that is not marked canceled, as an equation. *)
Lemma touch_live (pct : JsVal) (w : World) :
  truthy (canceled (this w)) = false ->
  let j' := with_attrs
              (fun a => set_progress pct
                          (set_lockedAt
                             (JSome (ValidDate (Date_now imports (ticks w)))) a))
              (this w) in
  touch agenda imports pct w =
  (match db_saveJobState agenda (trace w) j' with
   | Some e => Throw e
   | None => Normal tt
   end,
   mkWorld j' (S (ticks w)) (trace w ++ [SavedJobState (attrs j')])).
Proof.
  intros Hc. unfold touch. step_m. rewrite Hc. step_m.
  destruct (db_saveJobState agenda _ _); reflexivity.
Qed.

(** C7. [touch(progress)] on a job that is not marked canceled sets
    [lockedAt] to the clock reading, records [progress] and hands exactly
    that state to the storage adapter at once (the call ends as the adapter's
    save does); on a job marked canceled it raises, and neither the job nor
    the trace of calls to the store changes. *)
Theorem touch_heartbeat (pct : JsVal) (w : World) :
  (truthy (canceled (this w)) = false ->
   let now := ValidDate (Date_now imports (ticks w)) in
   let w' := (touch agenda imports pct w).2 in
   lockedAt (attrs (this w')) = JSome now /\
   progress (attrs (this w')) = pct /\
   attrs (this w')
     = set_progress pct (set_lockedAt (JSome now) (attrs (this w))) /\
   trace w' = trace w ++ [SavedJobState (attrs (this w'))] /\
   outcome (touch agenda imports pct) w
     = match db_saveJobState agenda (trace w) (this w') with
       | Some e => Throw e
       | None => Normal tt
       end) /\
  (truthy (canceled (this w)) = true ->
   exists e, touch agenda imports pct w = (Throw e, w)).
Proof.
  split.
  - intros Hc; unfold outcome. rewrite (touch_live _ _ Hc); simpl.
    repeat split.
  - intros Hc. unfold touch, mbind, M_bind, get_this; simpl.
    rewrite Hc. eexists; reflexivity.
Qed.

(** [computeNextRunAt] when the selected strategy raises (or returns an
    invalid date): [nextRunAt] is cleared and the error goes to [fail]. *)
Lemma computeNextRunAt_caught (w : World) (e : JsVal) :
  recurrence_raises imports (attrs (this w)) = Some e ->
  computeNextRunAt imports w =
  fail imports e
    (mkWorld (with_attrs (set_nextRunAt JNull) (this w)) (ticks w) (trace w)).
Proof.
  unfold recurrence_raises, computeNextRunAt. step_m.
  destruct (truthy (repeatInterval (attrs (this w)))).
  - destruct (computeFromInterval imports (attrs (this w))) as [e'|d]; step_m.
    + intros [= ->]. reflexivity.
    + destruct d; simpl; [discriminate|]. intros [= <-]. reflexivity.
  - destruct (truthy (repeatAt (attrs (this w)))); [|discriminate].
    destruct (computeFromRepeatAt imports (attrs (this w))) as [e'|d]; step_m.
    + intros [= ->]. reflexivity.
    + destruct d; simpl; [discriminate|]. intros [= <-]. reflexivity.
Qed.

(** [computeNextRunAt] when nothing raises: only [nextRunAt] changes. *)
Lemma computeNextRunAt_computed (w : World) :
  recurrence_raises imports (attrs (this w)) = None ->
  exists next,
    computeNextRunAt imports w =
    (Normal tt, mkWorld (with_attrs (set_nextRunAt next) (this w)) (ticks w) (trace w)) /\
    next =
      if truthy (repeatInterval (attrs (this w))) then
        match computeFromInterval imports (attrs (this w)) with
        | inr d => JSome d | inl _ => JNull end
      else if truthy (repeatAt (attrs (this w))) then
        match computeFromRepeatAt imports (attrs (this w)) with
        | inr d => JSome d | inl _ => JNull end
      else JNull.
Proof.
  unfold recurrence_raises, computeNextRunAt. step_m.
  destruct (truthy (repeatInterval (attrs (this w)))).
  - destruct (computeFromInterval imports (attrs (this w))) as [e'|d]; step_m;
      [discriminate|].
    destruct d; simpl; [|discriminate]. intros _. eexists; split; reflexivity.
  - destruct (truthy (repeatAt (attrs (this w)))).
    + destruct (computeFromRepeatAt imports (attrs (this w))) as [e'|d]; step_m;
        [discriminate|].
      destruct d; simpl; [|discriminate]. intros _. eexists; split; reflexivity.
    + intros _. eexists; split; reflexivity.
Qed.

(** [computeNextRunAt] never raises, reads the clock only to stamp a
    failure, and makes no call to the store or the event bus. *)
Lemma computeNextRunAt_normal (w : World) :
  outcome (computeNextRunAt imports) w = Normal tt /\
  trace_after (computeNextRunAt imports) w = trace w /\
  byJobProcessor (this (computeNextRunAt imports w).2) = byJobProcessor (this w) /\
  canceled (this (computeNextRunAt imports w).2) = canceled (this w) /\
  name (attrs_after (computeNextRunAt imports) w) = name (attrs (this w)) /\
  lastRunAt (attrs_after (computeNextRunAt imports) w) = lastRunAt (attrs (this w)).
Proof.
  unfold outcome, trace_after, attrs_after.
  destruct (recurrence_raises imports (attrs (this w))) as [e|] eqn:Hr.
  - rewrite (computeNextRunAt_caught _ _ Hr), fail_run; simpl. repeat split.
  - destruct (computeNextRunAt_computed _ Hr) as (next & -> & _).
    simpl. repeat split.
Qed.

(** A strategy that returns an invalid date does not raise, but formatting
    the date for the log does, inside the same [try]: the outcome is the one
    of a raising strategy. *)
Lemma computeNextRunAt_invalid_date (w : World) :
  truthy (repeatInterval (attrs (this w))) = true ->
  computeFromInterval imports (attrs (this w)) = inr InvalidDate ->
  nextRunAt (attrs_after (computeNextRunAt imports) w) = JNull /\
  failCount (attrs_after (computeNextRunAt imports) w)
    = JSome (failures (attrs (this w)) + 1) /\
  failReason (attrs_after (computeNextRunAt imports) w) = VStr "Invalid time value".
Proof.
  intros Hi Hc. unfold attrs_after.
  rewrite (computeNextRunAt_caught w (VErr KRangeError "Invalid time value")).
  - rewrite fail_run. repeat split.
  - unfold recurrence_raises. rewrite Hi, Hc. reflexivity.
Qed.


(** C4. [computeNextRunAt()] never propagates an error.  With a truthy
    [repeatInterval] the interval strategy decides: the valid date it returns
    becomes [nextRunAt] and nothing else changes.  Otherwise, with a truthy
    [repeatAt], the fixed-time strategy decides in the same way.  With
    neither, [nextRunAt] is cleared.  Whenever the strategy that is invoked
    raises, [nextRunAt] ends up [null], [failCount] is one above its previous
    value and [failReason] holds the error's message, while [lastRunAt] and
    the trace of outside calls are untouched: no execution attempt is made or
    recorded. *)
Theorem computeNextRunAt_delegates (w : World) :
  let a := attrs (this w) in
  let after := attrs_after (computeNextRunAt imports) w in
  outcome (computeNextRunAt imports) w = Normal tt /\
  (truthy (repeatInterval a) = true ->
   forall ms, computeFromInterval imports a = inr (ValidDate ms) ->
              after = set_nextRunAt (JSome (ValidDate ms)) a) /\
  (truthy (repeatInterval a) = false -> truthy (repeatAt a) = true ->
   forall ms, computeFromRepeatAt imports a = inr (ValidDate ms) ->
              after = set_nextRunAt (JSome (ValidDate ms)) a) /\
  (truthy (repeatInterval a) = false -> truthy (repeatAt a) = false ->
   after = set_nextRunAt JNull a) /\
  (forall e,
     (truthy (repeatInterval a) = true /\ computeFromInterval imports a = inl e) \/
     (truthy (repeatInterval a) = false /\ truthy (repeatAt a) = true /\
      computeFromRepeatAt imports a = inl e) ->
     nextRunAt after = JNull /\
     failCount after = JSome (failures a + 1) /\
     failReason after = match e with VErr _ m => VStr m | _ => e end /\
     lastRunAt after = lastRunAt a /\
     trace_after (computeNextRunAt imports) w = trace w).
Proof.
  intros a after.
  split; [apply computeNextRunAt_normal|].
  assert (Hok : recurrence_raises imports a = None ->
                exists next, after = set_nextRunAt next a /\
                  next = if truthy (repeatInterval a) then
                           match computeFromInterval imports a with
                           | inr d => JSome d | inl _ => JNull end
                         else if truthy (repeatAt a) then
                           match computeFromRepeatAt imports a with
                           | inr d => JSome d | inl _ => JNull end
                         else JNull).
  { intros Hr. destruct (computeNextRunAt_computed _ Hr) as (next & Heq & Hn).
    exists next. split; [|exact Hn]. unfold after, attrs_after. rewrite Heq.
    reflexivity. }
  assert (Hbad : forall e, recurrence_raises imports a = Some e ->
                 nextRunAt after = JNull /\
                 failCount after = JSome (failures a + 1) /\
                 failReason after = match e with VErr _ m => VStr m | _ => e end /\
                 lastRunAt after = lastRunAt a /\
                 trace_after (computeNextRunAt imports) w = trace w).
  { intros e Hr. unfold after, attrs_after, trace_after.
    rewrite (computeNextRunAt_caught _ _ Hr), fail_run; simpl.
    repeat split. }
  split; [|split; [|split]].
  - intros Hi ms Hc. destruct Hok as (next & -> & ->).
    + unfold recurrence_raises. fold a. rewrite Hi, Hc. reflexivity.
    + rewrite Hi, Hc. reflexivity.
  - intros Hi Hat ms Hc. destruct Hok as (next & -> & ->).
    + unfold recurrence_raises. fold a. rewrite Hi, Hat, Hc. reflexivity.
    + rewrite Hi, Hat, Hc. reflexivity.
  - intros Hi Hat. destruct Hok as (next & -> & ->).
    + unfold recurrence_raises. fold a. rewrite Hi, Hat. reflexivity.
    + rewrite Hi, Hat. reflexivity.
  - intros e He. apply Hbad. unfold recurrence_raises. fold a.
    destruct He as [[Hi Hc]|(Hi & Hat & Hc)].
    + rewrite Hi, Hc. reflexivity.
    + rewrite Hi, Hat, Hc. reflexivity.
Qed.


(** C8 (as amended). [repeatEvery(interval, options)] with a truthy
    [options.skipImmediate] stores the interval and the timezone, takes the
    job's current [nextRunAt] (the clock reading when there is none) as
    [lastRunAt], recomputes [nextRunAt] on the record anchored in this way,
    and then resets [lastRunAt] to [undefined].  With a truthy interval whose
    strategy returns a valid date on the anchored record, the job ends up as
    the anchored record with that date as [nextRunAt] and no [lastRunAt].
    With a truthy interval whose strategy raises, [nextRunAt] ends up [null]
    and the failure is recorded: [failCount] one higher, the error's text as
    [failReason], [failedAt] and [lastFinishedAt] at the clock reading that
    follows the anchoring. *)
Theorem repeatEvery_skipImmediate (interval : JsVal) (options : RepeatOptions)
    (w : World) :
  truthy (skipImmediate options) = true ->
  let a := attrs (this w) in
  let anchor :=
    match nextRunAt a with
    | JSome d => d
    | _ => ValidDate (Date_now imports (ticks w))
    end in
  let anchored :=
    set_lastRunAt (JSome anchor)
      (set_repeatTimezone (timezone options) (set_repeatInterval interval a)) in
  let w1 :=
    mkWorld (mkJob anchored (byJobProcessor (this w)) (canceled (this w)))
      (match nextRunAt a with JSome _ => ticks w | _ => S (ticks w) end)
      (trace w) in
  let after := attrs_after (repeatEvery imports interval options) w in
  outcome (repeatEvery imports interval options) w = Normal tt /\
  lastRunAt after = JUndefined /\
  after = set_lastRunAt JUndefined (attrs_after (computeNextRunAt imports) w1) /\
  (truthy interval = true ->
   forall ms, computeFromInterval imports anchored = inr (ValidDate ms) ->
     after = set_lastRunAt JUndefined
               (set_nextRunAt (JSome (ValidDate ms)) anchored)) /\
  (truthy interval = true ->
   forall e, computeFromInterval imports anchored = inl e ->
     let failed_at := JSome (ValidDate (Date_now imports (ticks w1))) in
     after =
       set_lastRunAt JUndefined
         (set_lastFinishedAt failed_at
            (set_failedAt failed_at
               (set_failCount (JSome (failures a + 1))
                  (set_failReason
                     (match e with VErr _ message => VStr message | _ => e end)
                     (set_nextRunAt JNull anchored)))))).
Proof.
  intros Hskip a anchor anchored w1 after.
  assert (Hrun : repeatEvery imports interval options w =
                 (Normal tt,
                  mkWorld (with_attrs (set_lastRunAt JUndefined)
                             (this (computeNextRunAt imports w1).2))
                    (ticks (computeNextRunAt imports w1).2)
                    (trace (computeNextRunAt imports w1).2))).
  { unfold repeatEvery. step_m. rewrite Hskip. simpl (nextRunAt _).
    destruct (nextRunAt (attrs (this w))) as [| |d] eqn:Hn; step_m;
      match goal with
      | |- context [computeNextRunAt imports ?x] =>
          set (X := x);
          assert (HX : w1 = X)
            by (subst w1 X anchored anchor a; rewrite Hn; reflexivity);
          rewrite HX;
          pose proof (computeNextRunAt_normal X) as (Hout & _);
          unfold outcome in Hout;
          destruct (computeNextRunAt imports X) as [c w2]; simpl in Hout;
          subst c; reflexivity
      end. }
  unfold outcome. subst after. unfold attrs_after. rewrite Hrun.
  do 3 (split; [reflexivity|]).
  split.
  - intros Hi ms Hc.
    assert (Hr : recurrence_raises imports (attrs (this w1)) = None).
    { unfold recurrence_raises.
      replace (repeatInterval (attrs (this w1))) with interval by reflexivity.
      replace (attrs (this w1)) with anchored by reflexivity.
      rewrite Hi, Hc. reflexivity. }
    destruct (computeNextRunAt_computed w1 Hr) as (next & Heq & Hnext).
    rewrite Heq.
    replace (repeatInterval (attrs (this w1))) with interval in Hnext by reflexivity.
    replace (attrs (this w1)) with anchored in Hnext by reflexivity.
    rewrite Hi, Hc in Hnext. subst next. reflexivity.
  - intros Hi e Hc. cbv zeta.
    assert (Hr : recurrence_raises imports (attrs (this w1)) = Some e).
    { unfold recurrence_raises.
      replace (repeatInterval (attrs (this w1))) with interval by reflexivity.
      replace (attrs (this w1)) with anchored by reflexivity.
      rewrite Hi, Hc. reflexivity. }
    rewrite (computeNextRunAt_caught w1 e Hr), fail_run. reflexivity.
Qed.

(** C9 (where the code departs from it). Looking up a job type without
    a registry entry is not a defined error condition in [isExpired], hence
    in [isDead]: the missing entry is dereferenced and the call dies with the
    runtime's [TypeError]. *)
Theorem isExpired_unregistered_type (w : World) :
  definitions agenda !! name (attrs (this w)) = None ->
  outcome (isExpired agenda imports) w
    = Throw (VErr KTypeError
               "Cannot read properties of undefined (reading 'lockLifetime')") /\
  (byJobProcessor (this w) = true ->
   outcome (isDead agenda imports) w
     = Throw (VErr KTypeError
                "Cannot read properties of undefined (reading 'lockLifetime')")).
Proof.
  intros Hd. unfold outcome, isDead, isExpired. step_m. rewrite Hd. step_m.
  split; [reflexivity|]. intros ->. simpl. step_m. rewrite Hd. reflexivity.
Qed.


(** One call of the storage adapter and one emission, as equations. *)
Lemma saveJobState_run (w : World) :
  saveJobState agenda w =
  (match db_saveJobState agenda (trace w) (this w) with
   | Some e => Throw e
   | None => Normal tt
   end,
   mkWorld (this w) (ticks w) (trace w ++ [SavedJobState (attrs (this w))])).
Proof.
  unfold saveJobState. step_m.
  destruct (db_saveJobState agenda (trace w) (this w)); reflexivity.
Qed.

Lemma emit_run (event : string) (error : option JsVal) (w : World) :
  emit agenda event error w =
  (match emit_raises agenda (trace w) event error (this w) with
   | Some e => Throw e
   | None => Normal tt
   end,
   mkWorld (this w) (ticks w) (trace w ++ [Emitted event error (attrs (this w))])).
Proof.
  unfold emit. step_m.
  destruct (emit_raises agenda (trace w) event error (this w)); reflexivity.
Qed.

Lemma emit_quiet (event : string) (error : option JsVal) (w : World) :
  quiet agenda event ->
  emit agenda event error w =
  (Normal tt,
   mkWorld (this w) (ticks w) (trace w ++ [Emitted event error (attrs (this w))])).
Proof. intros Hq. rewrite emit_run, Hq. reflexivity. Qed.

Lemma emitted_app (t u : list Effect) : emitted (t ++ u) = emitted t ++ emitted u.
Proof. unfold emitted. apply omap_app. Qed.


(** The [finally] block with quiet [complete] listeners ends normally
    whatever the final save does, with the lease cleared. *)
Lemma run_finally_run (w : World) :
  quiet agenda "complete" ->
  (forall n, quiet agenda ("complete:" +:+ n)) ->
  let released := set_lockedAt JUndefined (attrs (this w)) in
  run_finally agenda w =
  (Normal tt,
   mkWorld (mkJob released (byJobProcessor (this w)) (canceled (this w)))
     (ticks w)
     (trace w ++ [SavedJobState released] ++ [Emitted "complete" None released]
        ++ [Emitted ("complete:" +:+ name (attrs (this w))) None released])).
Proof.
  intros Hc Hcn released. unfold run_finally.
  unfold mbind at 1, M_bind at 1. unfold assign at 1, with_attrs.
  unfold mbind at 1, M_bind at 1. unfold try_catch. rewrite saveJobState_run.
  cbn [this ticks trace attrs byJobProcessor canceled].
  fold released.
  destruct (db_saveJobState agenda (trace w) _);
    unfold mret, M_ret; unfold mbind at 1, M_bind at 1;
    rewrite (emit_quiet _ _ _ Hc);
    unfold mbind at 1, M_bind at 1, get_attrs;
    cbn [this ticks trace attrs byJobProcessor canceled];
    rewrite (emit_quiet _ _ _ (Hcn _));
    cbn [this ticks trace attrs byJobProcessor canceled];
    rewrite <- !app_assoc; reflexivity.
Qed.

(** The [catch] block with quiet [fail] listeners: it raises exactly on an
    error that is [null] or [undefined]. *)
Lemma run_catch_run (error : JsVal) (w : World) :
  quiet agenda "fail" ->
  (forall n, quiet agenda ("fail:" +:+ n)) ->
  let failed := attrs_after (fail imports error) w in
  run_catch agenda imports error w =
  (match get_message error with inl e => Throw e | inr _ => Normal tt end,
   mkWorld (mkJob failed (byJobProcessor (this w)) (canceled (this w)))
     (S (ticks w))
     (trace w ++ [Emitted "fail" (Some error) failed]
        ++ [Emitted ("fail:" +:+ name (attrs (this w))) (Some error) failed])).
Proof.
  intros Hf Hfn failed. unfold run_catch.
  unfold mbind at 1, M_bind at 1. subst failed. unfold attrs_after.
  rewrite fail_run. cbn [snd].
  unfold mbind at 1, M_bind at 1. rewrite (emit_quiet _ _ _ Hf).
  unfold mbind at 1, M_bind at 1, get_attrs.
  cbn [this ticks trace attrs byJobProcessor canceled with_attrs].
  unfold mbind at 1, M_bind at 1. rewrite (emit_quiet _ _ _ (Hfn _)).
  cbn [this ticks trace attrs byJobProcessor canceled with_attrs].
  rewrite <- !app_assoc.
  destruct (get_message error); reflexivity.
Qed.


(** The prologue: it raises exactly when the first save does, and the save
    is the first outside call of the run. *)
Lemma run_prologue_run (w : World) :
  let w1 := mkWorld
              (with_attrs
                 (set_lastRunAt (JSome (ValidDate (Date_now imports (ticks w)))))
                 (this w))
              (S (ticks w)) (trace w) in
  let w2 := (computeNextRunAt imports w1).2 in
  run_prologue agenda imports w =
  (match db_saveJobState agenda (trace w) (this w2) with
   | Some e => Throw e
   | None => Normal tt
   end,
   mkWorld (this w2) (ticks w2) (trace w ++ [SavedJobState (attrs (this w2))])).
Proof.
  intros w1 w2. unfold run_prologue.
  unfold mbind at 1, M_bind at 1, new_Date.
  unfold mbind at 1, M_bind at 1, assign.
  cbn [this ticks trace]. fold w1.
  unfold mbind at 1, M_bind at 1.
  pose proof (computeNextRunAt_normal w1) as (Hout & Htr & _).
  unfold outcome in Hout. unfold trace_after in Htr. fold w2 in Htr.
  assert (Hw2 : computeNextRunAt imports w1 = (Normal tt, w2)).
  { subst w2. destruct (computeNextRunAt imports w1) as [c x]; simpl in *.
    subst c; reflexivity. }
  rewrite Hw2, saveJobState_run, Htr. reflexivity.
Qed.


(** The [try] block for a type without a registry entry. *)
Lemma run_try_undefined (w : World) :
  quiet agenda "start" ->
  (forall n, quiet agenda ("start:" +:+ n)) ->
  run_try agenda imports None w =
  (Throw (VErr KError "Undefined job"),
   mkWorld (this w) (ticks w)
     (trace w ++ [Emitted "start" None (attrs (this w))]
        ++ [Emitted ("start:" +:+ name (attrs (this w))) None (attrs (this w))])).
Proof.
  intros Hs Hsn. unfold run_try.
  unfold mbind at 1, M_bind at 1. rewrite (emit_quiet _ _ _ Hs).
  unfold mbind at 1, M_bind at 1, get_attrs. cbn [this ticks trace].
  unfold mbind at 1, M_bind at 1. rewrite (emit_quiet _ _ _ (Hsn _)).
  cbn [this ticks trace]. rewrite <- !app_assoc. reflexivity.
Qed.






(** In the callback convention only the callback and a rejection settle
    the awaited promise: a handler that returns a promise which resolves,
    and never invokes the callback, leaves [run] pending. *)
Lemma callback_style_resolution_is_not_wired (j : Job) :
  settle_callback_style (mkHandlerRun j 0 [] (Returns (RPromise Resolves)) None)
  = Pending.
Proof. reflexivity. Qed.

(** [run], once the prologue has gone through, is the guarded body run on
    the state the prologue left. *)
Lemma run_after_prologue (w : World) :
  (forall j, db_saveJobState agenda (trace w) j = None) ->
  exists wA,
    run_prologue agenda imports w = (Normal tt, wA) /\
    run agenda imports w =
      try_finally
        (try_catch
           (run_try agenda imports (definitions agenda !! name (attrs (this w))))
           (run_catch agenda imports))
        (run_finally agenda) wA /\
    name (attrs (this wA)) = name (attrs (this w)) /\
    emitted (trace wA) = emitted (trace w) /\
    (recurrence_raises imports
       (set_lastRunAt (JSome (ValidDate (Date_now imports (ticks w))))
          (attrs (this w))) = None ->
     failCount (attrs (this wA)) = failCount (attrs (this w))).
Proof.
  intros Hsave.
  pose proof (run_prologue_run w) as Hp. cbv zeta in Hp. rewrite Hsave in Hp.
  eexists. split; [exact Hp|]. split; [|split; [|split]].
  - unfold run. unfold mbind at 1, M_bind at 1, get_attrs.
    unfold mbind at 1, M_bind at 1. rewrite Hp. reflexivity.
  - cbn [this attrs].
    match goal with |- context [computeNextRunAt imports ?x] =>
      pose proof (computeNextRunAt_normal x) as (_ & _ & _ & _ & Hn & _) end.
    unfold attrs_after in Hn. rewrite Hn. reflexivity.
  - cbn [trace]. rewrite emitted_app. simpl. apply app_nil_r.
  - intros Hr. cbn [this attrs].
    match goal with |- context [computeNextRunAt imports ?x] =>
      destruct (computeNextRunAt_computed x Hr) as (next & -> & _) end.
    reflexivity.
Qed.



(** The sibling of the unguarded lookup: [run] on a type without a registry
    entry records the failure "Undefined job" and returns. *)
Lemma run_undefined_job (w : World) :
  definitions agenda !! name (attrs (this w)) = None ->
  (forall j, db_saveJobState agenda (trace w) j = None) ->
  (forall event, quiet agenda event) ->
  exists w',
    run agenda imports w = (Normal tt, w') /\
    failReason (attrs (this w')) = VStr "Undefined job" /\
    lockedAt (attrs (this w')) = JUndefined.
Proof.
  intros Hd Hsave Hq.
  destruct (run_after_prologue w Hsave) as (wA & _ & Hrun & _).
  rewrite Hrun, Hd. unfold try_finally, try_catch.
  rewrite (run_try_undefined wA (Hq _) (fun n => Hq _)).
  rewrite (run_catch_run _ _ (Hq _) (fun n => Hq _)). cbn [get_message].
  rewrite (run_finally_run _ (Hq _) (fun n => Hq _)).
  eexists. split; [reflexivity|].
  cbn [this attrs]. unfold attrs_after. rewrite fail_run. split; reflexivity.
Qed.


End JobProperties.


(** * Further properties of the engine *)

Section EngineProperties.

Context (agenda : Agenda) (imports : Imports).

(** Unfolding the plumbing of a method while keeping the outside calls, and
    then deciding the outside calls one by one. *)
Ltac mstep :=
  cbv beta iota zeta delta
    [mbind M_bind mret M_ret throw try_catch try_finally get_this get_attrs
     get_trace assign record eval raise_if new_Date now_ms with_attrs
     call_handler];
  cbn [this ticks trace attrs byJobProcessor canceled fst snd].

Ltac mcall :=
  first
    [ rewrite emit_run
    | rewrite saveJobState_run
    | rewrite fail_run
    | match goal with
      | |- context [emit_raises ?a ?t ?ev ?er ?j] =>
          destruct (emit_raises a t ev er j)
      | |- context [db_saveJobState ?a ?t ?j] =>
          destruct (db_saveJobState a t j)
      end ].

Ltac mrun := mstep; repeat (mcall; mstep).

(** ** The trace only grows *)

Lemma appends_ret {A} (a : A) : appends (mret a : M A).
Proof. intros w. exists []. simpl. symmetry; apply app_nil_r. Qed.

Lemma appends_throw {A} (e : JsVal) : appends (throw e : M A).
Proof. intros w. exists []. simpl. symmetry; apply app_nil_r. Qed.

Lemma appends_bind {A B} (m : M A) (f : A -> M B) :
  appends m -> (forall a, appends (f a)) -> appends (m ≫= f).
Proof.
  intros Hm Hf w. destruct (Hm w) as [more1 H1].
  unfold mbind, M_bind. destruct (m w) as [[a|e|] w1]; simpl in *.
  - destruct (Hf a w1) as [more2 H2]. exists (more1 ++ more2).
    rewrite H2, H1. symmetry; apply app_assoc.
  - eauto.
  - eauto.
Qed.

Lemma appends_try_catch {A} (m : M A) (h : JsVal -> M A) :
  appends m -> (forall e, appends (h e)) -> appends (try_catch m h).
Proof.
  intros Hm Hh w. destruct (Hm w) as [more1 H1].
  unfold try_catch. destruct (m w) as [[a|e|] w1]; simpl in *; eauto.
  destruct (Hh e w1) as [more2 H2]. exists (more1 ++ more2).
  rewrite H2, H1. symmetry; apply app_assoc.
Qed.

Lemma appends_try_finally {A} (m : M A) (f : M unit) :
  appends m -> appends f -> appends (try_finally m f).
Proof.
  intros Hm Hf w. destruct (Hm w) as [more1 H1]. destruct (Hf (m w).2) as [more2 H2].
  unfold try_finally. destruct (m w) as [[a|e|] w1]; simpl in *; eauto;
    destruct (f w1) as [[u|e'|] w2]; simpl in *;
    exists (more1 ++ more2); rewrite H2, H1; symmetry; apply app_assoc.
Qed.

Lemma appends_silent {A} (m : M A) :
  (forall w, trace (m w).2 = trace w) -> appends m.
Proof.
  intros H w. exists []. rewrite H. symmetry; apply app_nil_r.
Qed.

Lemma appends_saveJobState : appends (saveJobState agenda).
Proof. intros w. rewrite saveJobState_run. simpl. eauto. Qed.

Lemma appends_emit (event : string) (error : option JsVal) :
  appends (emit agenda event error).
Proof. intros w. rewrite emit_run. simpl. eauto. Qed.

Lemma appends_fail (reason : JsVal) : appends (fail imports reason).
Proof. apply appends_silent. intros w. rewrite fail_run. reflexivity. Qed.

Lemma appends_computeNextRunAt : appends (computeNextRunAt imports).
Proof.
  apply appends_silent. intros w.
  exact (proj1 (proj2 (computeNextRunAt_normal imports w))).
Qed.

Lemma appends_run_try (definition : option JobDefinition) :
  appends (run_try agenda imports definition).
Proof.
  unfold run_try.
  apply appends_bind; [apply appends_emit|intros _].
  apply appends_bind; [apply appends_silent; reflexivity|intros a].
  apply appends_bind; [apply appends_emit|intros _].
  destruct definition as [d|]; [|apply appends_throw].
  apply appends_bind; [intros w; simpl; eauto|intros _].
  apply appends_bind; [apply appends_silent; reflexivity|intros now].
  apply appends_bind; [apply appends_silent; reflexivity|intros _].
  apply appends_bind; [apply appends_emit|intros _].
  apply appends_bind; [apply appends_silent; reflexivity|intros a'].
  apply appends_emit.
Qed.

Lemma appends_run_catch (error : JsVal) : appends (run_catch agenda imports error).
Proof.
  unfold run_catch.
  apply appends_bind; [apply appends_fail|intros _].
  apply appends_bind; [apply appends_emit|intros _].
  apply appends_bind; [apply appends_silent; reflexivity|intros a].
  apply appends_bind; [apply appends_emit|intros _].
  apply appends_bind; [|intros; apply appends_ret].
  apply appends_silent. intros w. destruct (get_message error); reflexivity.
Qed.

Lemma appends_run_finally : appends (run_finally agenda).
Proof.
  unfold run_finally.
  apply appends_bind; [apply appends_silent; reflexivity|intros _].
  apply appends_bind;
    [apply appends_try_catch; [apply appends_saveJobState|intros; apply appends_ret]
    |intros _].
  apply appends_bind; [apply appends_emit|intros _].
  apply appends_bind; [apply appends_silent; reflexivity|intros a].
  apply appends_emit.
Qed.

(** ** What every run does *)

(** The state the prologue of [run] hands to the store. *)
Lemma run_prologue_state (w : World) :
  let now := ValidDate (Date_now imports (ticks w)) in
  let w2 := (computeNextRunAt imports
               (mkWorld (with_attrs (set_lastRunAt (JSome now)) (this w))
                  (S (ticks w)) (trace w))).2 in
  lastRunAt (attrs (this w2)) = JSome now /\
  lockedAt (attrs (this w2)) = lockedAt (attrs (this w)) /\
  (truthy (repeatInterval (attrs (this w))) = false ->
   truthy (repeatAt (attrs (this w))) = false ->
   nextRunAt (attrs (this w2)) = JNull).
Proof.
  intros now w2. subst w2.
  match goal with |- context [computeNextRunAt imports ?x] => set (w1 := x) end.
  split; [|split].
  - pose proof (computeNextRunAt_normal imports w1) as (_ & _ & _ & _ & _ & Hl).
    unfold attrs_after in Hl. rewrite Hl. reflexivity.
  - destruct (recurrence_raises imports (attrs (this w1))) as [e|] eqn:Hr.
    + rewrite (computeNextRunAt_caught imports w1 e Hr), fail_run. reflexivity.
    + destruct (computeNextRunAt_computed imports w1 Hr) as (next & -> & _).
      reflexivity.
  - intros Hi Ha.
    assert (Hr : recurrence_raises imports (attrs (this w1)) = None).
    { unfold recurrence_raises. subst w1. cbn [this attrs with_attrs].
      replace (repeatInterval (set_lastRunAt (JSome now) (attrs (this w))))
        with (repeatInterval (attrs (this w))) by reflexivity.
      replace (repeatAt (set_lastRunAt (JSome now) (attrs (this w))))
        with (repeatAt (attrs (this w))) by reflexivity.
      rewrite Hi, Ha. reflexivity. }
    destruct (computeNextRunAt_computed imports w1 Hr) as (next & -> & ->).
    subst w1. cbn [this attrs with_attrs].
    replace (repeatInterval (set_lastRunAt (JSome now) (attrs (this w))))
      with (repeatInterval (attrs (this w))) by reflexivity.
    replace (repeatAt (set_lastRunAt (JSome now) (attrs (this w))))
      with (repeatAt (attrs (this w))) by reflexivity.
    rewrite Hi, Ha. reflexivity.
Qed.

Lemma appends_guarded_run (definition : option JobDefinition) :
  appends (try_finally
             (try_catch (run_try agenda imports definition)
                (run_catch agenda imports))
             (run_finally agenda)).
Proof.
  apply appends_try_finally; [|apply appends_run_finally].
  apply appends_try_catch; [apply appends_run_try|apply appends_run_catch].
Qed.

(** [run()] as the prologue followed by the guarded body. *)
Lemma run_unfold (w : World) :
  run agenda imports w =
  match run_prologue agenda imports w with
  | (Normal _, wA) =>
      try_finally
        (try_catch
           (run_try agenda imports (definitions agenda !! name (attrs (this w))))
           (run_catch agenda imports))
        (run_finally agenda) wA
  | (Throw e, wA) => (Throw e, wA)
  | (Pending, wA) => (Pending, wA)
  end.
Proof. reflexivity. Qed.

(** The first outside call of every run is the save of the state that
    records the attempt: [lastRunAt] is the clock reading, and for a job
    without repeat configuration [nextRunAt] is already [null]. *)
Theorem run_saves_attempt_first (w : World) :
  exists a more,
    trace_after (run agenda imports) w = trace w ++ SavedJobState a :: more /\
    lastRunAt a = JSome (ValidDate (Date_now imports (ticks w))) /\
    lockedAt a = lockedAt (attrs (this w)) /\
    (truthy (repeatInterval (attrs (this w))) = false ->
     truthy (repeatAt (attrs (this w))) = false ->
     nextRunAt a = JNull).
Proof.
  pose proof (run_prologue_run agenda imports w) as Hp. cbv zeta in Hp.
  pose proof (run_prologue_state w) as Hs. cbv zeta in Hs.
  unfold trace_after. rewrite run_unfold, Hp.
  match type of Hp with context [SavedJobState ?x] => exists x end.
  destruct (db_saveJobState agenda (trace w) _) as [e|].
  - exists []. split; [reflexivity|exact Hs].
  - match goal with |- context [try_finally ?m ?f ?x] =>
      destruct (appends_guarded_run (definitions agenda !! name (attrs (this w))) x)
        as [more Hm] end.
    exists more. split; [|exact Hs].
    rewrite Hm. cbn [trace]. rewrite <- app_assoc. reflexivity.
Qed.














(** ** The failure counter across a run *)

Lemma run_try_failures (definition : option JobDefinition) (w : World) :
  (forall d j, definition = Some d ->
     failCount (attrs (job_after (fn d j))) = failCount (attrs j)) ->
  failures (attrs (this (run_try agenda imports definition w).2))
    = failures (attrs (this w)).
Proof.
  intros Hkeep. unfold run_try. mrun; try reflexivity.
  all: destruct definition as [d|]; mstep; try reflexivity.
  all: pose proof (Hkeep d (this w) eq_refl) as Hk.
  all: destruct (handler_outcome d (this w)); mrun;
    unfold failures; cbn [failCount set_lastFinishedAt]; rewrite ?Hk; reflexivity.
Qed.

Lemma run_catch_failures (e : JsVal) (w : World) :
  failures (attrs (this (run_catch agenda imports e w).2))
    = failures (attrs (this w)) + 1.
Proof.
  unfold run_catch. mrun; try reflexivity.
  destruct (get_message e); reflexivity.
Qed.

Lemma run_finally_failures (w : World) :
  failures (attrs (this (run_finally agenda w).2)) = failures (attrs (this w)).
Proof. unfold run_finally. mrun; reflexivity. Qed.

(** Whatever the store, the listeners and the recurrence strategy do, a run
    whose handler leaves the counter alone never lowers [failCount] and
    raises it by two at most: once when the recurrence computation fails and
    once when the attempt fails. *)
Theorem run_failures_monotone (w : World) :
  (forall d j, definitions agenda !! name (attrs (this w)) = Some d ->
     failCount (attrs (job_after (fn d j))) = failCount (attrs j)) ->
  failures (attrs (this w)) <= failures (attrs_after (run agenda imports) w)
    <= failures (attrs (this w)) + 2.
Proof.
  intros Hkeep. unfold attrs_after.
  pose proof (run_prologue_run agenda imports w) as Hp. cbv zeta in Hp.
  revert Hp. set (w2 := (computeNextRunAt imports _).2). intros Hp.
  assert (H2 : failures (attrs (this w)) <= failures (attrs (this w2))
               <= failures (attrs (this w)) + 1).
  { subst w2.
    match goal with |- context [computeNextRunAt imports ?x] => set (w1 := x) end.
    destruct (recurrence_raises imports (attrs (this w1))) as [e|] eqn:Hr.
    - rewrite (computeNextRunAt_caught imports w1 e Hr), fail_run.
      subst w1. unfold failures at 2 3. simpl. unfold failures. simpl. lia.
    - destruct (computeNextRunAt_computed imports w1 Hr) as (next & -> & _).
      subst w1. unfold failures. simpl. lia. }
  rewrite run_unfold, Hp.
  destruct (db_saveJobState agenda (trace w) (this w2)) as [e|].
  { cbn [snd this attrs]. lia. }
  unfold try_finally, try_catch.
  match goal with |- context [run_try agenda imports ?def ?x] =>
    pose proof (run_try_failures def x Hkeep) as Ht;
    destruct (run_try agenda imports def x) as [[u|e|] wB] end;
    cbn [snd this attrs] in Ht.
  - pose proof (run_finally_failures wB) as Hf.
    destruct (run_finally agenda wB) as [[u'|e'|] wC]; cbn [snd] in *; lia.
  - pose proof (run_catch_failures e wB) as Hc.
    destruct (run_catch agenda imports e wB) as [[u'|e'|] wB']; cbn [snd] in *;
      try lia;
      pose proof (run_finally_failures wB') as Hf;
      destruct (run_finally agenda wB') as [[u''|e''|] wC]; cbn [snd] in *; lia.
  - cbn [snd]. lia.
Qed.


(** ** Status checks *)

(** [fetchStatus] in all its cases: one read of the store, no other outside
    call; the three status fields are replaced when a record is found, and
    nothing changes otherwise. *)
Lemma fetchStatus_run (w : World) :
  fetchStatus agenda w =
  let id := _id (attrs (this w)) in
  let asked := trace w ++ [GotJobs id] in
  match db_getJobs agenda (trace w) id with
  | inl e => (Throw e, mkWorld (this w) (ticks w) asked)
  | inr [] =>
      (Throw (VErr KError
                ("job with id " +:+ to_string id +:+ " not found in database")),
       mkWorld (this w) (ticks w) asked)
  | inr (first :: _) =>
      (Normal tt,
       mkWorld
         (with_attrs
            (fun a => set_lastFinishedAt (lastFinishedAt first)
                        (set_lockedAt (lockedAt first)
                           (set_lastRunAt (lastRunAt first) a)))
            (this w))
         (ticks w) asked)
  end.
Proof.
  unfold fetchStatus. mstep.
  destruct (db_getJobs agenda (trace w) (_id (attrs (this w)))) as [e|[|first rest]];
    reflexivity.
Qed.

(** A client handle whose record is gone from the store: [isRunning] and
    [isDead] raise the "not found" error after the one read, without
    consulting the registry or the clock and without changing the handle; an
    error of the store itself is passed on in the same way. *)
Theorem status_check_without_record (w : World) :
  byJobProcessor (this w) = false ->
  let id := _id (attrs (this w)) in
  let asked := mkWorld (this w) (ticks w) (trace w ++ [GotJobs id]) in
  (db_getJobs agenda (trace w) id = inr [] ->
   let missing :=
     VErr KError ("job with id " +:+ to_string id +:+ " not found in database") in
   isRunning agenda w = (Throw missing, asked) /\
   isDead agenda imports w = (Throw missing, asked)) /\
  (forall e, db_getJobs agenda (trace w) id = inl e ->
   isRunning agenda w = (Throw e, asked) /\
   isDead agenda imports w = (Throw e, asked)).
Proof.
  intros Hc id asked. split.
  - intros Hdb missing. split.
    + rewrite isRunning_unfold, Hc. cbn [negb]. rewrite fetchStatus_run.
      cbv zeta. fold id. rewrite Hdb. reflexivity.
    + unfold isDead. mstep. rewrite Hc. cbn [negb]. rewrite fetchStatus_run.
      cbv zeta. fold id. rewrite Hdb. reflexivity.
  - intros e Hdb. split.
    + rewrite isRunning_unfold, Hc. cbn [negb]. rewrite fetchStatus_run.
      cbv zeta. fold id. rewrite Hdb. reflexivity.
    + unfold isDead. mstep. rewrite Hc. cbn [negb]. rewrite fetchStatus_run.
      cbv zeta. fold id. rewrite Hdb. reflexivity.
Qed.

Lemma without_status_set (r l f : Nullable Date) (a : JobAttrs) :
  without_status (set_lastFinishedAt f (set_lockedAt l (set_lastRunAt r a)))
  = without_status a.
Proof. reflexivity. Qed.

(** [isExpired] changes nothing but the number of clock readings. *)
Lemma isExpired_state (w : World) :
  (isExpired agenda imports w).2 = mkWorld (this w) (S (ticks w)) (trace w).
Proof.
  unfold isExpired. mstep.
  destruct (definitions agenda !! name (attrs (this w))); mstep; [|reflexivity].
  destruct (lockedAt (attrs (this w))) as [| |locked]; try reflexivity.
  destruct (num_lt _ _); reflexivity.
Qed.

(** The status checks never write: whatever the store and the registry
    answer, [isRunning] and [isDead] save nothing and emit nothing, read the
    store once on a client handle and not at all on the processor's
    instance, and change at most the three status fields of the handle. *)
Theorem status_checks_never_write (w : World) :
  let reads := if byJobProcessor (this w)
               then [] else [GotJobs (_id (attrs (this w)))] in
  trace_after (isRunning agenda) w = trace w ++ reads /\
  trace_after (isDead agenda imports) w = trace w ++ reads /\
  without_status (attrs_after (isRunning agenda) w) = without_status (attrs (this w)) /\
  without_status (attrs_after (isDead agenda imports) w)
    = without_status (attrs (this w)) /\
  (byJobProcessor (this w) = true ->
   attrs_after (isRunning agenda) w = attrs (this w) /\
   attrs_after (isDead agenda imports) w = attrs (this w)).
Proof.
  intros reads. subst reads. unfold trace_after, attrs_after.
  assert (Hdead : (isDead agenda imports w).2 =
            match (if negb (byJobProcessor (this w))
                   then fetchStatus agenda else mret tt) w with
            | (Normal _, w1) => mkWorld (this w1) (S (ticks w1)) (trace w1)
            | (_, w1) => w1
            end).
  { unfold isDead. mstep.
    destruct ((if negb (byJobProcessor (this w)) then fetchStatus agenda
               else (fun w0 => (Normal tt, w0))) w) as [[u|e|] w1];
      try reflexivity.
    apply isExpired_state. }
  rewrite Hdead, isRunning_unfold.
  destruct (byJobProcessor (this w)); cbn [negb].
  - simpl. rewrite app_nil_r. repeat split.
  - rewrite fetchStatus_run. cbv zeta.
    destruct (db_getJobs agenda (trace w) (_id (attrs (this w)))) as [e|[|first rest]];
      simpl; repeat split; discriminate.
Qed.

(** [isDead] on a client handle whose record the store returns, for a
    registered type: the answer is read off the stored lease, true exactly
    when the stored [lockedAt] is strictly older than the clock reading minus
    the lease duration. *)
Theorem isDead_client_reads_stored_lease (w : World) (d : JobDefinition)
    (first : JobAttrs) (others : list JobAttrs) :
  byJobProcessor (this w) = false ->
  db_getJobs agenda (trace w) (_id (attrs (this w))) = inr (first :: others) ->
  definitions agenda !! name (attrs (this w)) = Some d ->
  exists b,
    outcome (isDead agenda imports) w = Normal b /\
    (b = true <->
     exists locked,
       lockedAt first = JSome locked /\
       strictly_older_than locked
         (Date_now imports (ticks w) - lockLifetime d)).
Proof.
  intros Hc Hdb Hd. unfold outcome, isDead at 1. mstep. rewrite Hc. cbn [negb].
  rewrite fetchStatus_run. cbv zeta. rewrite Hdb.
  rewrite (isExpired_registered agenda imports _ d) by exact Hd.
  cbn [fst this attrs ticks with_attrs].
  eexists. split; [reflexivity|].
  replace (lockedAt (set_lastFinishedAt (lastFinishedAt first)
             (set_lockedAt (lockedAt first)
                (set_lastRunAt (lastRunAt first) (attrs (this w))))))
    with (lockedAt first) by reflexivity.
  unfold strictly_older_than.
  destruct (lockedAt first) as [| |[ms|]]; simpl.
  - split; [discriminate|]. intros (l & Hl & _); discriminate.
  - split; [discriminate|]. intros (l & Hl & _); discriminate.
  - rewrite Z.ltb_lt. split.
    + intros Hlt. exists (ValidDate ms). split; [reflexivity|exact Hlt].
    + intros (l & Hl & Hlt). inversion Hl; subst l. exact Hlt.
  - split; [discriminate|].
    intros (l & Hl & Hlt). inversion Hl; subst l. destruct Hlt.
Qed.



(** ** Failure accounting and recurrence *)

(** Any number of [fail] calls: the counter rises by exactly the number of
    calls (it never falls and is never reset), one clock reading is made per
    call, and the stored reason is the text of the last one. *)
Theorem fail_each_counts (reasons : list JsVal) (w : World) :
  outcome (fail_each imports reasons) w = Normal tt /\
  failures (attrs_after (fail_each imports reasons) w)
    = failures (attrs (this w)) + Z.of_nat (length reasons) /\
  ticks (fail_each imports reasons w).2 = (ticks w + length reasons)%nat /\
  trace_after (fail_each imports reasons) w = trace w /\
  failReason (attrs_after (fail_each imports reasons) w)
    = match last reasons with
      | Some reason => reason_text reason
      | None => failReason (attrs (this w))
      end.
Proof.
  revert w. induction reasons as [|reason rest IH]; intros w.
  - unfold outcome, attrs_after, trace_after. simpl.
    repeat split; [lia|lia].
  - unfold outcome, attrs_after, trace_after in *.
    cbn [fail_each]. unfold mbind, M_bind. rewrite fail_run.
    match goal with |- context [fail_each imports rest ?x] =>
      destruct (IH x) as (Ho & Hc & Ht & Htr & Hr) end.
    split; [exact Ho|]. split; [|split; [|split]].
    + rewrite Hc. cbn [this attrs with_attrs].
      replace (failures _) with (failures (attrs (this w)) + 1) by reflexivity.
      cbn [length]. lia.
    + rewrite Ht. cbn [ticks length]. lia.
    + rewrite Htr. reflexivity.
    + rewrite Hr. destruct rest as [|r2 rest']; [reflexivity|].
      cbn [last]. destruct (last (r2 :: rest')) eqn:Hlast; [reflexivity|].
      exfalso. revert Hlast. clear. revert r2.
      induction rest' as [|x l IHl]; intros r2; simpl; [discriminate|apply IHl].
Qed.

(** A truthy [repeatInterval] takes precedence: [computeNextRunAt] then
    never consults the fixed-time strategy (nor the priority resolver), so
    replacing them changes nothing. *)
Theorem computeNextRunAt_interval_first (w : World)
    (other_repeatAt : JobAttrs -> JsVal + Date) (other_priority : JsVal -> Z) :
  truthy (repeatInterval (attrs (this w))) = true ->
  computeNextRunAt
    (mkImports (Date_now imports) (computeFromInterval imports)
       other_repeatAt other_priority) w
  = computeNextRunAt imports w.
Proof.
  intros Hi. unfold computeNextRunAt, fail. mstep. rewrite Hi. reflexivity.
Qed.

(** A strategy that answers with an invalid date is treated like one that
    raises: [nextRunAt] is cleared and a failure with the reason "Invalid
    time value" is recorded, for the interval strategy as for the fixed-time
    strategy. *)
Theorem computeNextRunAt_rejects_invalid_date (w : World) :
  let a := attrs (this w) in
  (truthy (repeatInterval a) = true /\
   computeFromInterval imports a = inr InvalidDate) \/
  (truthy (repeatInterval a) = false /\ truthy (repeatAt a) = true /\
   computeFromRepeatAt imports a = inr InvalidDate) ->
  outcome (computeNextRunAt imports) w = Normal tt /\
  nextRunAt (attrs_after (computeNextRunAt imports) w) = JNull /\
  failCount (attrs_after (computeNextRunAt imports) w) = JSome (failures a + 1) /\
  failReason (attrs_after (computeNextRunAt imports) w) = VStr "Invalid time value" /\
  lastFinishedAt (attrs_after (computeNextRunAt imports) w)
    = JSome (ValidDate (Date_now imports (ticks w))).
Proof.
  intros a H.
  assert (Hr : recurrence_raises imports (attrs (this w))
               = Some (VErr KRangeError "Invalid time value")).
  { unfold recurrence_raises. fold a.
    destruct H as [[Hi Hc]|(Hi & Ha & Hc)].
    - rewrite Hi, Hc. reflexivity.
    - rewrite Hi, Ha, Hc. reflexivity. }
  unfold outcome, attrs_after.
  rewrite (computeNextRunAt_caught imports w _ Hr), fail_run.
  repeat split.
Qed.

(** [repeatEvery] with [skipImmediate], as an equation: the recurrence is
    computed on the anchored record and [lastRunAt] is reset afterwards. *)
Lemma repeatEvery_anchored (interval : JsVal) (options : RepeatOptions)
    (w : World) :
  truthy (skipImmediate options) = true ->
  let anchor :=
    match nextRunAt (attrs (this w)) with
    | JSome d => d
    | _ => ValidDate (Date_now imports (ticks w))
    end in
  let w1 :=
    mkWorld
      (mkJob
         (set_lastRunAt (JSome anchor)
            (set_repeatTimezone (timezone options)
               (set_repeatInterval interval (attrs (this w)))))
         (byJobProcessor (this w)) (canceled (this w)))
      (match nextRunAt (attrs (this w)) with JSome _ => ticks w | _ => S (ticks w) end)
      (trace w) in
  repeatEvery imports interval options w =
  (Normal tt,
   mkWorld (with_attrs (set_lastRunAt JUndefined)
              (this (computeNextRunAt imports w1).2))
     (ticks (computeNextRunAt imports w1).2)
     (trace (computeNextRunAt imports w1).2)).
Proof.
  intros Hskip anchor w1.
  unfold repeatEvery. mstep. rewrite Hskip. simpl (nextRunAt _).
  destruct (nextRunAt (attrs (this w))) as [| |d] eqn:Hn; mstep;
    match goal with
    | |- context [computeNextRunAt imports ?x] =>
        set (X := x);
        assert (HX : w1 = X) by (subst w1 X anchor; rewrite ?Hn; reflexivity);
        rewrite HX;
        pose proof (computeNextRunAt_normal imports X) as (Hout & _);
        unfold outcome in Hout;
        destruct (computeNextRunAt imports X) as [c w2]; simpl in Hout;
        subst c; reflexivity
    end.
Qed.

(** [repeatEvery] without [skipImmediate]: the interval and the timezone
    are stored (an omitted timezone erases the one stored before),
    [lastRunAt] is left alone, no outside call is made, and [nextRunAt] is
    what the strategy answers on the record with its true last run. *)
Theorem repeatEvery_plain (interval : JsVal) (options : RepeatOptions)
    (w : World) :
  truthy (skipImmediate options) = false ->
  let configured :=
    set_repeatTimezone (timezone options)
      (set_repeatInterval interval (attrs (this w))) in
  let after := attrs_after (repeatEvery imports interval options) w in
  repeatEvery imports interval options w
    = computeNextRunAt imports
        (mkWorld (mkJob configured (byJobProcessor (this w)) (canceled (this w)))
           (ticks w) (trace w)) /\
  outcome (repeatEvery imports interval options) w = Normal tt /\
  trace_after (repeatEvery imports interval options) w = trace w /\
  lastRunAt after = lastRunAt (attrs (this w)) /\
  repeatTimezone after = timezone options /\
  (truthy interval = true ->
   forall ms, computeFromInterval imports configured = inr (ValidDate ms) ->
     after = set_nextRunAt (JSome (ValidDate ms)) configured).
Proof.
  intros Hskip configured after.
  assert (Heq : repeatEvery imports interval options w
                = computeNextRunAt imports
                    (mkWorld (mkJob configured (byJobProcessor (this w))
                                (canceled (this w)))
                       (ticks w) (trace w))).
  { unfold repeatEvery. mstep. rewrite Hskip. reflexivity. }
  split; [exact Heq|].
  subst after. unfold outcome, trace_after, attrs_after. rewrite Heq.
  set (w1 := mkWorld _ _ _).
  pose proof (computeNextRunAt_normal imports w1) as (Ho & Ht & _ & _ & _ & Hl).
  unfold outcome, trace_after, attrs_after in *.
  split; [exact Ho|]. split; [exact Ht|]. split; [exact Hl|].
  destruct (recurrence_raises imports (attrs (this w1))) as [e|] eqn:Hr.
  - rewrite (computeNextRunAt_caught imports w1 e Hr), fail_run.
    split; [reflexivity|].
    intros Hi ms Hc. exfalso.
    unfold recurrence_raises in Hr. subst w1. cbn [this attrs] in Hr.
    replace (repeatInterval configured) with interval in Hr by reflexivity.
    rewrite Hi, Hc in Hr. discriminate.
  - destruct (computeNextRunAt_computed imports w1 Hr) as (next & -> & Hn).
    split; [reflexivity|].
    intros Hi ms Hc. subst w1. cbn [this attrs snd with_attrs] in *.
    replace (repeatInterval configured) with interval in Hn by reflexivity.
    rewrite Hi, Hc in Hn. rewrite Hn. reflexivity.
Qed.

(** [repeatEvery] with [skipImmediate] and an interval that the strategy
    rejects: although nothing ran, the job is marked failed and finished,
    [nextRunAt] is cleared, and the last run it had recorded is erased. *)
Theorem repeatEvery_skipImmediate_rejected (interval : JsVal)
    (options : RepeatOptions) (w : World) (e : JsVal) :
  truthy (skipImmediate options) = true ->
  truthy interval = true ->
  (forall a, repeatInterval a = interval -> computeFromInterval imports a = inl e) ->
  let after := attrs_after (repeatEvery imports interval options) w in
  outcome (repeatEvery imports interval options) w = Normal tt /\
  nextRunAt after = JNull /\
  lastRunAt after = JUndefined /\
  failCount after = JSome (failures (attrs (this w)) + 1) /\
  failReason after = reason_text e /\
  present (lastFinishedAt after) = true /\
  present (failedAt after) = true.
Proof.
  intros Hskip Hi Hrej after.
  pose proof (repeatEvery_anchored interval options w Hskip) as Heq.
  cbv zeta in Heq.
  subst after. unfold outcome, attrs_after. rewrite Heq. clear Heq.
  match goal with |- context [computeNextRunAt imports ?x] => set (w1 := x) end.
  assert (Hr : recurrence_raises imports (attrs (this w1)) = Some e).
  { unfold recurrence_raises.
    replace (repeatInterval (attrs (this w1))) with interval by reflexivity.
    rewrite Hi, (Hrej (attrs (this w1)) eq_refl). reflexivity. }
  rewrite (computeNextRunAt_caught imports w1 e Hr), fail_run.
  subst w1. repeat split.
Qed.


End EngineProperties.


(** * Scheduling methods and serialization *)

Section SchedulingProperties.

Context (agenda : Agenda) (imports : Imports) (lib : DateLib).

(** [schedule] on a time that the strict [Date] constructor accepts. *)
Lemma schedule_strict (time : AttrValue) (w : World) (ms : Z) :
  getTime (new_Date_of lib time) = Some ms ->
  schedule lib time w =
  (Normal tt,
   mkWorld (with_attrs (set_nextRunAt (JSome (ValidDate ms))) (this w))
     (ticks w) (trace w)).
Proof.
  intros Hms. unfold schedule. rewrite Hms.
  destruct (new_Date_of lib time); simpl in Hms; [|discriminate].
  injection Hms as ->. reflexivity.
Qed.

(** [schedule(time)]: a time that the strict [Date] constructor accepts (a
    valid date object, an epoch number, a parseable string) becomes
    [nextRunAt] as it is, without consulting date.js or the clock; any other
    time is handed to date.js, whose answer becomes [nextRunAt] and whose
    exception leaves the job unchanged.  Nothing but [nextRunAt] is written,
    so the repeat configuration survives. *)
Theorem schedule_sets_nextRunAt (time : AttrValue) (w : World) :
  (forall ms, getTime (new_Date_of lib time) = Some ms ->
     schedule lib time w =
     (Normal tt,
      mkWorld (with_attrs (set_nextRunAt (JSome (ValidDate ms))) (this w))
        (ticks w) (trace w))) /\
  (forall parsed,
     getTime (new_Date_of lib time) = None ->
     date_js lib (ticks w) time = inr parsed ->
     outcome (schedule lib time) w = Normal tt /\
     attrs_after (schedule lib time) w
       = set_nextRunAt (JSome parsed) (attrs (this w))) /\
  (forall e,
     getTime (new_Date_of lib time) = None ->
     date_js lib (ticks w) time = inl e ->
     outcome (schedule lib time) w = Throw e /\
     attrs_after (schedule lib time) w = attrs (this w)) /\
  (forall n : Z,
     attrs_after (schedule lib (APrim (VNum n))) w
       = set_nextRunAt (JSome (ValidDate n)) (attrs (this w))) /\
  (forall ms : Z,
     attrs_after (schedule lib (ADate (ValidDate ms))) w
       = set_nextRunAt (JSome (ValidDate ms)) (attrs (this w))).
Proof.
  unfold outcome, attrs_after, schedule.
  split; [|split; [|split; [|split]]].
  - intros ms Hms. fold (schedule lib time). apply schedule_strict, Hms.
  - intros parsed Hn Hd. rewrite Hn, Hd. split; reflexivity.
  - intros e Hn Hd. rewrite Hn, Hd. split; reflexivity.
  - intros n. reflexivity.
  - intros ms. reflexivity.
Qed.

(** [schedule] followed by [repeatEvery] with [skipImmediate]: the scheduled
    instant becomes the anchor of the recurrence, so the job first runs one
    interval after the scheduled time. *)
Theorem schedule_then_repeatEvery (time : AttrValue) (interval : JsVal)
    (options : RepeatOptions) (w : World) (ms next : Z) :
  getTime (new_Date_of lib time) = Some ms ->
  truthy (skipImmediate options) = true ->
  truthy interval = true ->
  let anchored :=
    set_lastRunAt (JSome (ValidDate ms))
      (set_repeatTimezone (timezone options)
         (set_repeatInterval interval
            (set_nextRunAt (JSome (ValidDate ms)) (attrs (this w))))) in
  computeFromInterval imports anchored = inr (ValidDate next) ->
  outcome (schedule lib time;; repeatEvery imports interval options) w
    = Normal tt /\
  attrs_after (schedule lib time;; repeatEvery imports interval options) w
    = set_lastRunAt JUndefined (set_nextRunAt (JSome (ValidDate next)) anchored).
Proof.
  intros Hms Hskip Hi anchored Hc.
  unfold outcome, attrs_after, mbind, M_bind.
  rewrite (schedule_strict time w ms Hms).
  match goal with |- context [repeatEvery imports interval options ?x] =>
    pose proof (repeatEvery_anchored imports interval options x Hskip) as Heq end.
  cbv zeta in Heq. cbn [this attrs with_attrs ticks trace nextRunAt set_nextRunAt
                        byJobProcessor canceled] in Heq.
  rewrite Heq. clear Heq.
  match goal with |- context [computeNextRunAt imports ?x] => set (w1 := x) end.
  assert (Ha : attrs (this w1) = anchored) by reflexivity.
  assert (Hr : recurrence_raises imports (attrs (this w1)) = None).
  { unfold recurrence_raises. rewrite Ha.
    replace (repeatInterval anchored) with interval by reflexivity.
    rewrite Hi, Hc. reflexivity. }
  destruct (computeNextRunAt_computed imports w1 Hr) as (nxt & -> & Hn).
  rewrite Ha in Hn.
  replace (repeatInterval anchored) with interval in Hn by reflexivity.
  rewrite Hi, Hc in Hn. subst nxt. split; reflexivity.
Qed.

(** One scheduling call: no outside call, no pending end, and only the
    fields of the scheduling group are written. *)
Lemma perform_frame (c : SchedulingCall) (w : World) :
  (perform imports lib c w).1 <> Pending /\
  trace (perform imports lib c w).2 = trace w /\
  byJobProcessor (this (perform imports lib c w).2) = byJobProcessor (this w) /\
  canceled (this (perform imports lib c w).2) = canceled (this w) /\
  without_scheduling (attrs (this (perform imports lib c w).2))
    = without_scheduling (attrs (this w)).
Proof.
  destruct c; simpl; try (repeat split; discriminate).
  unfold schedule. destruct (getTime (new_Date_of lib time)).
  - repeat split; discriminate.
  - destruct (date_js lib (ticks w) time); repeat split; discriminate.
Qed.

(** [isRunning] answers from the trace, the flag, the id and the three
    status fields only. *)
Lemma isRunning_outcome_ext (w w' : World) :
  trace w' = trace w ->
  byJobProcessor (this w') = byJobProcessor (this w) ->
  _id (attrs (this w')) = _id (attrs (this w)) ->
  lastRunAt (attrs (this w')) = lastRunAt (attrs (this w)) ->
  lastFinishedAt (attrs (this w')) = lastFinishedAt (attrs (this w)) ->
  lockedAt (attrs (this w')) = lockedAt (attrs (this w)) ->
  outcome (isRunning agenda) w' = outcome (isRunning agenda) w.
Proof.
  intros Ht Hb Hi Hr Hf Hl. unfold outcome.
  rewrite !isRunning_unfold, Hb.
  destruct (byJobProcessor (this w)); cbn [negb].
  - simpl. unfold running_answer. rewrite Hr, Hf, Hl. reflexivity.
  - rewrite !fetchStatus_run. cbv zeta. rewrite Ht, Hi.
    destruct (db_getJobs agenda (trace w) (_id (attrs (this w))))
      as [e|[|first rest]]; reflexivity.
Qed.

(** A chain of scheduling calls ([repeatAt], [disable], [enable],
    [unique], [schedule], [priority]) makes no outside call and leaves the
    name, the id, the status fields, the failure accounting and the repeat
    interval as they were; in particular it does not change what [isRunning]
    answers. *)
Theorem scheduling_chain_keeps_status (cs : list SchedulingCall) (w : World) :
  let w' := (chain imports lib cs w).2 in
  outcome (chain imports lib cs) w <> Pending /\
  trace w' = trace w /\
  byJobProcessor (this w') = byJobProcessor (this w) /\
  canceled (this w') = canceled (this w) /\
  without_scheduling (attrs (this w')) = without_scheduling (attrs (this w)) /\
  outcome (isRunning agenda) w' = outcome (isRunning agenda) w.
Proof.
  cbv zeta.
  assert (H : (chain imports lib cs w).1 <> Pending /\
              trace (chain imports lib cs w).2 = trace w /\
              byJobProcessor (this (chain imports lib cs w).2)
                = byJobProcessor (this w) /\
              canceled (this (chain imports lib cs w).2) = canceled (this w) /\
              without_scheduling (attrs (this (chain imports lib cs w).2))
                = without_scheduling (attrs (this w))).
  { revert w. induction cs as [|c rest IH]; intros w.
    - simpl. repeat split. discriminate.
    - cbn [chain]. unfold mbind, M_bind.
      pose proof (perform_frame c w) as (Hp & Ht & Hb & Hc & Hw).
      destruct (perform imports lib c w) as [[u|e|] w1]; simpl in *.
      + destruct (IH w1) as (Hp' & Ht' & Hb' & Hc' & Hw').
        split; [exact Hp'|]. rewrite Ht', Hb', Hc', Hw'. repeat split; assumption.
      + repeat split; assumption.
      + exfalso. apply Hp. reflexivity. }
  destruct H as (Hp & Ht & Hb & Hc & Hw).
  unfold outcome at 1. repeat split; try assumption.
  apply isRunning_outcome_ext; try assumption.
  - exact (f_equal _id Hw).
  - exact (f_equal lastRunAt Hw).
  - exact (f_equal lastFinishedAt Hw).
  - exact (f_equal lockedAt Hw).
Qed.

(** ** [toJson] *)

Lemma toJson_lookup (m : gmap string AttrValue) (key : string) :
  toJson lib m !! key =
  (fun v => if bool_decide (key ∈ datefields lib) && truthy_attr v
            then ADate (new_Date_of lib v) else v) <$> m !! key.
Proof.
  unfold toJson. rewrite map_lookup_imap. destruct (m !! key); reflexivity.
Qed.

(** [toJson] returns an object with the same keys.  A key outside
    [datefields] keeps its value whatever it is, a payload object included;
    a falsy value ([undefined], [null], [0], the empty string) is kept under
    every key; a date is kept; an epoch number under a date key becomes the
    date of that instant. *)
Theorem toJson_fields (m : gmap string AttrValue) :
  dom (toJson lib m) = dom m /\
  (forall key, key ∉ datefields lib -> toJson lib m !! key = m !! key) /\
  (forall key v, m !! key = Some v -> truthy_attr v = false ->
     toJson lib m !! key = Some v) /\
  (forall key d, m !! key = Some (ADate d) ->
     toJson lib m !! key = Some (ADate d)) /\
  (forall key n, key ∈ datefields lib -> n <> 0 ->
     m !! key = Some (APrim (VNum n)) ->
     toJson lib m !! key = Some (ADate (ValidDate n))).
Proof.
  split; [|split; [|split; [|split]]].
  - apply set_eq. intros key. rewrite !elem_of_dom, toJson_lookup.
    destruct (m !! key); simpl; split; intros [x Hx]; eauto.
  - intros key Hk. rewrite toJson_lookup.
    rewrite (bool_decide_eq_false_2 _ Hk). simpl.
    destruct (m !! key); reflexivity.
  - intros key v Hv Hf. rewrite toJson_lookup, Hv. simpl.
    rewrite Hf, andb_false_r. reflexivity.
  - intros key d Hd. rewrite toJson_lookup, Hd. simpl.
    destruct (bool_decide (key ∈ datefields lib)); reflexivity.
  - intros key n Hk Hn Hv. rewrite toJson_lookup, Hv. simpl.
    rewrite (bool_decide_eq_true_2 _ Hk). simpl.
    destruct (Z.eqb_spec n 0); [contradiction|reflexivity].
Qed.

(** Serializing twice gives what serializing once gives. *)
Theorem toJson_idempotent (m : gmap string AttrValue) :
  toJson lib (toJson lib m) = toJson lib m.
Proof.
  apply map_eq. intros key. rewrite !toJson_lookup.
  destruct (m !! key) as [v|]; simpl; [|reflexivity].
  destruct (bool_decide (key ∈ datefields lib)); simpl; [|reflexivity].
  destruct (truthy_attr v) eqn:Hv; simpl; [reflexivity|].
  rewrite Hv. reflexivity.
Qed.

(** On a record whose date fields hold dates (or nothing), [toJson] is the
    identity, provided [datefields] names date fields only. *)
Theorem toJson_typed_record (a : JobAttrs) :
  (forall key, key ∈ datefields lib -> key ∈ date_keys) ->
  toJson lib (object_of_attrs a) = object_of_attrs a.
Proof.
  intros Hkeys. apply map_eq. intros key. rewrite toJson_lookup.
  destruct (object_of_attrs a !! key) as [v|] eqn:Hv; simpl; [|reflexivity].
  destruct (bool_decide (key ∈ datefields lib)) eqn:Hd; simpl; [|reflexivity].
  apply bool_decide_eq_true_1, Hkeys in Hd.
  f_equal. destruct a.
  apply list_elem_of_In in Hd. simpl in Hd.
  destruct Hd as [<-|[<-|[<-|[<-|[<-|[]]]]]];
    vm_compute in Hv; injection Hv as <-;
    match goal with
    | |- context [match ?x with JUndefined => _ | JNull => _ | JSome _ => _ end] =>
        destruct x; reflexivity
    end.
Qed.

End SchedulingProperties.

(** * The properties on the sample collaborators *)





(** A handler that throws [null] makes the [catch] block itself raise, and
    the [TypeError] leaves [run] after the [finally] block has completed. *)
Lemma run_raises_on_null_error :
  outcome (run sample_agenda sample_imports)
    (sample_world "throw null" VUndefined)
  = Throw (VErr KTypeError "Cannot read properties of null (reading 'message')") /\
  emitted (trace_after (run sample_agenda sample_imports)
             (sample_world "throw null" VUndefined))
  = ["start"; "start:throw null"; "fail"; "fail:throw null";
     "complete"; "complete:throw null"].
Proof. split; vm_compute; reflexivity. Qed.

(** C3, on the sample job: the processor's instance has never run; the
    client handle adopts the stored record, which has started and not
    finished. *)
Lemma isRunning_truth_table_witness :
  (exists b,
     isRunning sample_agenda (sample_world "send email" VUndefined)
       = (Normal b, sample_world "send email" VUndefined) /\
     isRunning_table (attrs (this (sample_world "send email" VUndefined))) b) /\
  (exists b w',
     isRunning sample_agenda client_world = (Normal b, w') /\
     isRunning_table stored_record b /\
     lastRunAt (attrs (this w')) = lastRunAt stored_record /\
     lastFinishedAt (attrs (this w')) = lastFinishedAt stored_record /\
     lockedAt (attrs (this w')) = lockedAt stored_record).
Proof.
  split.
  - exact (proj1 (isRunning_truth_table sample_agenda
                    (sample_world "send email" VUndefined)) eq_refl).
  - exact (proj2 (isRunning_truth_table sample_agenda client_world) eq_refl
             stored_record [] eq_refl).
Defined.

(** C6, on the sample job: locked at 400000 with a lease of 600000 and the
    clock at 1000000, the lease is exactly at the boundary. *)
Lemma isExpired_strict_deadline_witness :
  outcome (isExpired sample_agenda sample_imports)
    (sample_world "send email" VUndefined) = Normal false.
Proof.
  apply (proj1 (proj2 (isExpired_strict_deadline sample_agenda sample_imports
                         (sample_world "send email" VUndefined) throwing_handler
                         ltac:(vm_compute; reflexivity)))).
  reflexivity.
Defined.

(** C7, on the sample job, which is not canceled. *)
Lemma touch_heartbeat_witness :
  lockedAt (attrs_after (touch sample_agenda sample_imports (VNum 40))
              (sample_world "send email" VUndefined))
    = JSome (ValidDate 1000000) /\
  progress (attrs_after (touch sample_agenda sample_imports (VNum 40))
              (sample_world "send email" VUndefined))
    = VNum 40.
Proof.
  destruct (proj1 (touch_heartbeat sample_agenda sample_imports (VNum 40)
                     (sample_world "send email" VUndefined)) eq_refl)
    as (Hl & Hp & _).
  split; [exact Hl|exact Hp].
Defined.

(** C8, on the sample job: the next run was due at 999000; skipping it with
    an interval of one minute schedules 1059000. *)
Lemma repeatEvery_skipImmediate_witness :
  attrs_after
    (repeatEvery sample_imports (VNum 60000) (mkRepeatOptions VUndefined (VBool true)))
    (sample_world "send email" VUndefined)
  = set_lastRunAt JUndefined
      (set_nextRunAt (JSome (ValidDate 1059000))
         (set_lastRunAt (JSome (ValidDate 999000))
            (set_repeatTimezone VUndefined
               (set_repeatInterval (VNum 60000)
                  (sample_attrs "send email" VUndefined))))).
Proof.
  exact (proj1 (proj2 (proj2 (proj2
           (repeatEvery_skipImmediate sample_imports (VNum 60000)
              (mkRepeatOptions VUndefined (VBool true))
              (sample_world "send email" VUndefined) eq_refl))))
           eq_refl 1059000 eq_refl).
Defined.

(** C8 as stated fails: with [skipImmediate] and an interval that the
    interval strategy rejects, the job does not end up with a skipped-ahead
    [nextRunAt] and nothing else: [nextRunAt] is [null], and the failure
    counter, the failure reason and [lastFinishedAt], untouched before, are
    written. *)
Lemma repeatEvery_skipImmediate_records_failure :
  truthy (skipImmediate (mkRepeatOptions VUndefined (VBool true))) = true /\
  nextRunAt
    (attrs_after
       (repeatEvery sample_imports (VStr "whenever")
          (mkRepeatOptions VUndefined (VBool true)))
       (sample_world "send email" VUndefined)) = JNull /\
  failCount (attrs (this (sample_world "send email" VUndefined))) = JSome 0 /\
  failCount
    (attrs_after
       (repeatEvery sample_imports (VStr "whenever")
          (mkRepeatOptions VUndefined (VBool true)))
       (sample_world "send email" VUndefined)) = JSome 1 /\
  lastFinishedAt (attrs (this (sample_world "send email" VUndefined))) = JUndefined /\
  lastFinishedAt
    (attrs_after
       (repeatEvery sample_imports (VStr "whenever")
          (mkRepeatOptions VUndefined (VBool true)))
       (sample_world "send email" VUndefined)) = JSome (ValidDate 1000000) /\
  failReason
    (attrs_after
       (repeatEvery sample_imports (VStr "whenever")
          (mkRepeatOptions VUndefined (VBool true)))
       (sample_world "send email" VUndefined))
  = VStr "failed to calculate nextRunAt due to invalid repeat interval".
Proof. repeat split. Qed.

(** C4, on the sample job with an interval the strategy rejects. *)
Lemma computeNextRunAt_delegates_witness :
  nextRunAt (attrs_after (computeNextRunAt sample_imports)
               (sample_world "send email" (VStr "whenever"))) = JNull /\
  failCount (attrs_after (computeNextRunAt sample_imports)
               (sample_world "send email" (VStr "whenever"))) = JSome 1.
Proof.
  destruct (proj2 (proj2 (proj2 (proj2
              (computeNextRunAt_delegates sample_imports
                 (sample_world "send email" (VStr "whenever"))))))
              (VErr KError
                 "failed to calculate nextRunAt due to invalid repeat interval")
              (or_introl (conj eq_refl eq_refl)))
    as (Hn & Hc & _).
  split; [exact Hn|exact Hc].
Defined.

(** C9, on the sample agenda, which defines no type "unknown job". *)
Lemma isExpired_unregistered_type_witness :
  outcome (isExpired sample_agenda sample_imports)
    (sample_world "unknown job" VUndefined)
  = Throw (VErr KTypeError
             "Cannot read properties of undefined (reading 'lockLifetime')").
Proof.
  apply (proj1 (isExpired_unregistered_type sample_agenda sample_imports
                  (sample_world "unknown job" VUndefined)
                  ltac:(vm_compute; reflexivity))).
Defined.

(** * The further properties on the sample collaborators *)



(** The heartbeat of the sample handlers is what [touch] does at the second
    clock reading. *)
Lemma heartbeat_is_touch (j : Job) (t : list Effect) :
  truthy (canceled j) = false ->
  touch patient_agenda sample_imports (VNum 50) (mkWorld j 1 t)
  = (Normal tt,
     mkWorld (job_after (fn heartbeat_handler j))
       (1 + readings (fn heartbeat_handler j))
       (t ++ map SavedJobState (saves (fn heartbeat_handler j)))).
Proof.
  intros Hc. pose proof (touch_live patient_agenda sample_imports (VNum 50)
                           (mkWorld j 1 t) Hc) as H.
  cbv zeta in H. rewrite H. reflexivity.
Qed.





(** A client handle on the hostile agenda, whose store holds no record. *)
Lemma status_check_without_record_witness :
  outcome (isRunning hostile_agenda) client_world
    = Throw (VErr KError "job with id 65f0c0ffee not found in database") /\
  outcome (isDead hostile_agenda sample_imports) client_world
    = Throw (VErr KError "job with id 65f0c0ffee not found in database").
Proof.
  destruct (proj1 (status_check_without_record hostile_agenda sample_imports
                     client_world eq_refl) eq_refl) as (Hr & Hd).
  unfold outcome. rewrite Hr, Hd. split; reflexivity.
Defined.

Lemma isDead_client_reads_stored_lease_witness :
  exists b,
    outcome (isDead sample_agenda sample_imports) client_world = Normal b /\
    (b = true <->
     exists locked,
       lockedAt stored_record = JSome locked /\
       strictly_older_than locked (1000000 - 600000)).
Proof.
  exact (isDead_client_reads_stored_lease sample_agenda sample_imports
           client_world throwing_handler stored_record [] eq_refl eq_refl
           ltac:(vm_compute; reflexivity)).
Defined.


Lemma computeNextRunAt_interval_first_witness :
  computeNextRunAt
    (mkImports sample_clock sample_computeFromInterval
       (fun _ => inr InvalidDate) (fun _ => 7))
    (sample_world "send email" (VNum 60000))
  = computeNextRunAt sample_imports (sample_world "send email" (VNum 60000)).
Proof.
  exact (computeNextRunAt_interval_first sample_imports
           (sample_world "send email" (VNum 60000))
           (fun _ => inr InvalidDate) (fun _ => 7) eq_refl).
Defined.

Lemma computeNextRunAt_rejects_invalid_date_witness :
  outcome (computeNextRunAt careless_imports)
    (sample_world "send email" (VNum 60000)) = Normal tt /\
  nextRunAt (attrs_after (computeNextRunAt careless_imports)
               (sample_world "send email" (VNum 60000))) = JNull /\
  failCount (attrs_after (computeNextRunAt careless_imports)
               (sample_world "send email" (VNum 60000))) = JSome 1.
Proof.
  destruct (computeNextRunAt_rejects_invalid_date careless_imports
              (sample_world "send email" (VNum 60000))
              (or_introl (conj eq_refl eq_refl)))
    as (Ho & Hn & Hc & _).
  split; [exact Ho|]. split; [exact Hn|exact Hc].
Defined.

Lemma repeatEvery_plain_witness :
  attrs_after
    (repeatEvery sample_imports (VNum 60000) (mkRepeatOptions VUndefined VUndefined))
    (sample_world "send email" VUndefined)
  = set_nextRunAt (JSome (ValidDate 60000))
      (set_repeatTimezone VUndefined
         (set_repeatInterval (VNum 60000) (sample_attrs "send email" VUndefined))).
Proof.
  exact (proj2 (proj2 (proj2 (proj2 (proj2
           (repeatEvery_plain sample_imports (VNum 60000)
              (mkRepeatOptions VUndefined VUndefined)
              (sample_world "send email" VUndefined) eq_refl)))))
           eq_refl 60000 eq_refl).
Defined.

Lemma repeatEvery_skipImmediate_rejected_witness :
  nextRunAt
    (attrs_after
       (repeatEvery sample_imports (VStr "whenever")
          (mkRepeatOptions VUndefined (VBool true)))
       (sample_world "send email" VUndefined)) = JNull /\
  failCount
    (attrs_after
       (repeatEvery sample_imports (VStr "whenever")
          (mkRepeatOptions VUndefined (VBool true)))
       (sample_world "send email" VUndefined)) = JSome 1.
Proof.
  assert (Hrej : forall a, repeatInterval a = VStr "whenever" ->
            computeFromInterval sample_imports a
            = inl (VErr KError
                     "failed to calculate nextRunAt due to invalid repeat interval")).
  { intros a Ha. simpl. unfold sample_computeFromInterval. rewrite Ha. reflexivity. }
  destruct (repeatEvery_skipImmediate_rejected sample_imports (VStr "whenever")
              (mkRepeatOptions VUndefined (VBool true))
              (sample_world "send email" VUndefined) _ eq_refl eq_refl Hrej)
    as (_ & Hn & _ & Hc & _).
  split; [exact Hn|exact Hc].
Defined.

Lemma toJson_typed_record_witness :
  toJson sample_lib (object_of_attrs (sample_attrs "send email" VUndefined))
  = object_of_attrs (sample_attrs "send email" VUndefined).
Proof.
  apply (toJson_typed_record sample_lib). intros key Hkey. exact Hkey.
Defined.

Lemma run_failures_monotone_witness :
  0 <= failures (attrs_after (run hostile_agenda sample_imports)
                   (sample_world "send email" (VStr "whenever"))) <= 2.
Proof.
  apply (run_failures_monotone hostile_agenda sample_imports
           (sample_world "send email" (VStr "whenever"))).
  intros d j Hd. vm_compute in Hd. injection Hd as <-. reflexivity.
Defined.

(** Scheduling the sample job for 5000000 and repeating every minute,
    skipping the immediate run: the first run is due at 5060000. *)
Lemma schedule_then_repeatEvery_witness :
  nextRunAt
    (attrs_after
       (schedule sample_lib (APrim (VNum 5000000));;
        repeatEvery sample_imports (VNum 60000)
          (mkRepeatOptions VUndefined (VBool true)))
       (sample_world "send email" VUndefined))
  = JSome (ValidDate 5060000).
Proof.
  rewrite (proj2 (schedule_then_repeatEvery sample_imports sample_lib
                    (APrim (VNum 5000000)) (VNum 60000)
                    (mkRepeatOptions VUndefined (VBool true))
                    (sample_world "send email" VUndefined) 5000000 5060000
                    eq_refl eq_refl eq_refl eq_refl)).
  reflexivity.
Defined.


(** The handler that reports "disk full" through its callback and then
    resolves: the callback came first, and one failure is accounted. *)
Lemma run_callback_error_example :
  outcome (run patient_agenda sample_imports)
    (sample_world "export data" VUndefined) = Normal tt /\
  failCount (attrs_after (run patient_agenda sample_imports)
               (sample_world "export data" VUndefined)) = JSome 1 /\
  failReason (attrs_after (run patient_agenda sample_imports)
                (sample_world "export data" VUndefined)) = VStr "disk full".
Proof. repeat split; vm_compute; reflexivity. Qed.
